(** * WizePrompt: the conversation data-access module and the parameters modal

    A shallow embedding of the conversation data-access functions (the
    module built on the Prisma client) and of the state logic of the
    [ModalParametersGPT] and [MessageList] components, with the properties
    their specification states about them and further properties the code
    has. *)

From Stdlib Require Import ZArith QArith String Ascii List Bool Lia.
From stdpp Require Import base option list gmap fin_maps.

Local Open Scope Z_scope.

(** ** JavaScript values

    Strings are sequences of UTF-16 code units; numbers are only ever tested
    for truthiness and passed on, never computed with. *)

Definition jsstring : Type := list N.

(** An ASCII literal of the source, as a JavaScript string. *)
Definition lit (s : string) : jsstring :=
  List.map N_of_ascii (list_ascii_of_string s).

Inductive number : Type :=
| NaN
| Num (q : Q).

(** [Object.is] on numbers (the comparison React applies to effect
    dependencies). *)
Definition same_number (a b : number) : bool :=
  match a, b with
  | NaN, NaN => true
  | Num p, Num q => Qeq_bool p q
  | _, _ => false
  end.

#[warnings="-register-all"]
Inductive json : Type :=
| JNull
| JBool (b : bool)
| JNum (n : number)
| JStr (s : jsstring)
| JArr (items : list json)
| JObj (fields : list (jsstring * json)).

(** The empty object literal. *)
Definition empty_object : json := JObj [].

(** *** Truthiness *)

Class Truthy (A : Type) := truthy : A -> bool.

#[export] Instance bool_truthy : Truthy bool := fun b => b.
#[export] Instance Z_truthy : Truthy Z := fun z => negb (z =? 0).
#[export] Instance number_truthy : Truthy number := fun n =>
  match n with
  | NaN => false
  | Num q => negb (Qeq_bool q 0)
  end.
#[export] Instance jsstring_truthy : Truthy jsstring := fun s =>
  match s with
  | [] => false
  | _ :: _ => true
  end.
#[export] Instance json_truthy : Truthy json := fun v =>
  match v with
  | JNull => false
  | JBool b => b
  | JNum n => truthy n
  | JStr s => truthy s
  | JArr _ | JObj _ => true
  end.
(** [None] stands for [undefined] (or [null]). *)
#[export] Instance option_truthy {A} `{Truthy A} : Truthy (option A) := fun o =>
  match o with
  | None => false
  | Some a => truthy a
  end.

(** [x <= 0] and [x < 0] on a possibly missing number: a comparison with
    [undefined] is false. *)
Definition js_le0 (x : option Z) : bool :=
  match x with
  | None => false
  | Some z => z <=? 0
  end.

Definition js_lt0 (x : option Z) : bool :=
  match x with
  | None => false
  | Some z => z <? 0
  end.

(** *** [String.prototype.trim] *)

(** The code units [trim] strips: ECMAScript's WhiteSpace and LineTerminator. *)
Definition is_whitespace (c : N) : bool :=
  existsb (N.eqb c)
    [ 0x0009; 0x000A; 0x000B; 0x000C; 0x000D; 0x0020; 0x00A0; 0x1680;
      0x2000; 0x2001; 0x2002; 0x2003; 0x2004; 0x2005; 0x2006; 0x2007;
      0x2008; 0x2009; 0x200A; 0x2028; 0x2029; 0x202F; 0x205F; 0x3000;
      0xFEFF ]%N.

Fixpoint trim_start (s : jsstring) : jsstring :=
  match s with
  | [] => []
  | c :: rest => if is_whitespace c then trim_start rest else s
  end.

Definition trim_end (s : jsstring) : jsstring := rev (trim_start (rev s)).

Definition trim (s : jsstring) : jsstring := trim_end (trim_start s).

(** *** Property reads on a parsed JSON value

    [v[key]] for a value [JSON.parse] returned: an own property (an object's
    fields, the indices and [length] of arrays and strings), or else a member
    inherited along the prototype chain. *)

Inductive error : Type :=
| SyntaxError                      (* JSON.parse on malformed text *)
| TypeError                        (* property read on null *)
| PrismaValidationError            (* a query the client refuses to send *)
| PrismaValueOutOfRange            (* an id that does not fit an Int column *)
| PrismaRecordNotFound             (* update/delete: no row matches where *)
| PrismaRelatedRecordNotFound      (* connect/set names a missing row *)
| PrismaUniqueConstraint.          (* insert on an existing key *)

Inductive outcome (A : Type) : Type :=
| Ret (a : A)
| Throw (e : error).
Arguments Ret {A} a.
Arguments Throw {A} e.

Fixpoint assoc (key : jsstring) (fields : list (jsstring * json)) : option json :=
  match fields with
  | [] => None
  | (k, v) :: rest => if decide (k = key) then Some v else assoc key rest
  end.

Definition digit_value (c : N) : option nat :=
  if ((0x30 <=? c) && (c <=? 0x39))%N then Some (N.to_nat (c - 0x30)) else None.

Fixpoint digits_value (acc : nat) (s : jsstring) : option nat :=
  match s with
  | [] => Some acc
  | c :: rest =>
      match digit_value c with
      | Some d => digits_value (10 * acc + d) rest
      | None => None
      end
  end.

(** A canonical numeric string: decimal digits with no leading zero. *)
Definition array_index (key : jsstring) : option nat :=
  match key with
  | [] => None
  | [c] => digit_value c
  | c :: _ => if (c =? 0x30)%N then None else digits_value 0 key
  end.

Definition length_key : jsstring := lit "length".

Definition js_length {A} (l : list A) : json :=
  JNum (Num (inject_Z (Z.of_nat (length l)))).

(** What a property read gives. *)
Inductive member : Type :=
| Data (v : json)          (* an own property: a value of the parsed text *)
| Method                   (* an inherited function *)
| Prototype (zero : json). (* [__proto__]: the prototype object, which
                              [JSON.stringify] writes as it writes [zero] *)

(** Functions and objects are truthy. *)
#[export] Instance member_truthy : Truthy member := fun m =>
  match m with
  | Data v => truthy v
  | Method | Prototype _ => true
  end.

(** The string-keyed members of [Object.prototype] other than [__proto__]:
    all of them functions, the same in every edition of the language. *)
Definition object_prototype_methods : list string :=
  [ "constructor"; "__defineGetter__"; "__defineSetter__"; "hasOwnProperty";
    "__lookupGetter__"; "__lookupSetter__"; "isPrototypeOf";
    "propertyIsEnumerable"; "toString"; "valueOf"; "toLocaleString" ]%string.

(** The prototypes between a value that is not a plain object and
    [Object.prototype]. Which methods they hold depends on the edition of
    the language the runtime implements, so the runtime says ([methods p key]:
    [p] has a method named [key]). *)
Inductive prototype : Type :=
| ArrayPrototype
| StringPrototype
| NumberPrototype
| BooleanPrototype.

Definition proto_key : jsstring := lit "__proto__".

(** The member found along the prototype chain: [own_methods] is the test
    of the value's own prototype, [zero] the value that prototype boxes. *)
Definition inherited (own_methods : jsstring -> bool) (zero : json) (key : jsstring)
    : option member :=
  if decide (key = proto_key) then Some (Prototype zero)
  else if own_methods key || bool_decide (key ∈ lit <$> object_prototype_methods)
  then Some Method
  else None.

(** An own property hides an inherited member of the same name. *)
Definition own_or (own : option json) (up : option member) : option member :=
  match own with
  | Some v => Some (Data v)
  | None => up
  end.

Definition get_property (methods : prototype -> jsstring -> bool)
    (v : json) (key : jsstring) : outcome (option member) :=
  match v with
  | JNull => Throw TypeError
  | JBool _ => Ret (inherited (methods BooleanPrototype) (JBool false) key)
  | JNum _ => Ret (inherited (methods NumberPrototype) (JNum (Num 0)) key)
  | JStr s =>
      Ret (own_or
             (if decide (key = length_key) then Some (js_length s)
              else i ← array_index key; c ← s !! i; Some (JStr [c]))
             (inherited (methods StringPrototype) (JStr []) key))
  | JArr items =>
      Ret (own_or
             (if decide (key = length_key) then Some (js_length items)
              else i ← array_index key; items !! i)
             (inherited (methods ArrayPrototype) (JArr []) key))
  | JObj fields =>
      Ret (own_or (assoc key fields) (inherited (fun _ => false) empty_object key))
  end.

(** ** The database

    One finite map per table, from the primary key [id] to the row's other
    columns. The many-to-many relation between conversations and tags is kept
    with the conversation row. *)

(** An [Int] column holds 32 bits. *)
Definition fits (i : Z) : bool := (-2147483648 <=? i) && (i <=? 2147483647).

(** Every id of the table fits the column. *)
Definition keys_fit {A} (m : gmap Z A) : bool :=
  forallb (fun kv => fits kv.1) (map_to_list m).

(** The rows of [m] whose id fits the column. *)
Definition restrict {A} (m : gmap Z A) : gmap Z A :=
  filter (fun kv => fits kv.1 = true) m.

Arguments restrict : simpl never.

Lemma keys_fit_spec {A} (m : gmap Z A) :
  keys_fit m = true <-> forall k x, m !! k = Some x -> fits k = true.
Proof.
  unfold keys_fit. rewrite forallb_forall. split.
  - intros H k x Hk. apply (H (k, x)). apply list_elem_of_In.
    by apply elem_of_map_to_list.
  - intros H [k x] Hin. apply list_elem_of_In, elem_of_map_to_list in Hin.
    by apply (H k x).
Qed.

Lemma keys_fit_restrict {A} (m : gmap Z A) : keys_fit (restrict m) = true.
Proof.
  apply keys_fit_spec. intros k x Hk.
  by apply map_lookup_filter_Some in Hk as [_ Hfit].
Qed.

Lemma restrict_fit {A} (m : gmap Z A) : keys_fit m = true -> restrict m = m.
Proof.
  intros H. apply map_filter_id. intros k x Hk. simpl.
  by apply (proj1 (keys_fit_spec m) H k x).
Qed.

Module User.
Record t : Type := {
  globalParameters : option jsstring   (* nullable JSON text, keyed by model name *)
}.
End User.

Module Provider.
Record t : Type := { image : jsstring }.
End Provider.

Module Model.
Record t : Type := { name : jsstring; idProvider : Z }.
End Model.

Module Tag.
Record t : Type := { name : jsstring }.
End Tag.

Module Message.
Record t : Type := { idConversation : Z; role : jsstring; content : jsstring }.
End Message.

Module Conversation.
Record t : Type := {
  idUser : Z;
  idModel : Z;
  title : jsstring;
  parameters : json;                   (* a JSON column: any JSON value *)
  active : bool;
  useGlobalParameters : bool;          (* written by the spread of the input *)
  tags : gset Z                        (* the ids of the tags attached *)
}.
End Conversation.

(** The tables that are looked up by id hold rows whose id fits the
    column: no other row can be stored. *)
Record Db : Type := {
  users : gmap Z User.t;
  providers : gmap Z Provider.t;
  models : gmap Z Model.t;
  tag_rows : gmap Z Tag.t;
  conversations : gmap Z Conversation.t;
  messages : gmap Z Message.t;
  next_conversation_id : Z;           (* the autoincrement sequence *)
  ids_fit :
    Is_true (keys_fit users && keys_fit models && keys_fit tag_rows
             && keys_fit conversations)
}.

Lemma ids_fit_set_conversations (d : Db) (m : gmap Z Conversation.t) :
  Is_true (keys_fit (users d) && keys_fit (models d) && keys_fit (tag_rows d)
           && keys_fit (restrict m)).
Proof.
  pose proof (ids_fit d) as H. rewrite !andb_True in H. destruct H as [[[Hu Hm] Ht] _].
  rewrite !andb_True. repeat split; try done. by rewrite keys_fit_restrict.
Qed.

(** A write on the conversations: the rows [f] gives, those apart whose id
    does not fit the column (no caller of this file produces one). *)
Definition set_conversations (f : gmap Z Conversation.t -> gmap Z Conversation.t)
    (d : Db) : Db :=
  {| users := users d; providers := providers d; models := models d;
     tag_rows := tag_rows d; conversations := restrict (f (conversations d));
     messages := messages d; next_conversation_id := next_conversation_id d;
     ids_fit := ids_fit_set_conversations d (f (conversations d)) |}.

Definition set_messages (f : gmap Z Message.t -> gmap Z Message.t) (d : Db) : Db :=
  {| users := users d; providers := providers d; models := models d;
     tag_rows := tag_rows d; conversations := conversations d;
     messages := f (messages d); next_conversation_id := next_conversation_id d;
     ids_fit := ids_fit d |}.

Definition bump_conversation_id (d : Db) : Db :=
  {| users := users d; providers := providers d; models := models d;
     tag_rows := tag_rows d; conversations := conversations d;
     messages := messages d; next_conversation_id := next_conversation_id d + 1;
     ids_fit := ids_fit d |}.

(** ** The Prisma client

    Every call on the client is recorded, so that "queries nothing" and
    "deletes the messages first" can be stated. *)

Inductive call : Type :=
| UserFindUnique (id : option Z)
| ModelFindUnique (id : option Z)
| ConversationFindUnique (id : option Z)
| ConversationFindMany (idUser : option Z)
| ConversationCreate
| ConversationUpdate (id : option Z)
| ConversationUpdateMany (idUser : option Z)
| ConversationDelete (id : option Z)
| MessageDeleteMany (idConversation : option Z).

(** A computation against the database: it returns or throws, and leaves a
    database and the calls it made behind. Writes made before a throw stay
    (no call of the module opens a transaction). *)
Definition M (A : Type) : Type := Db -> outcome A * Db * list call.

#[export] Instance M_ret : MRet M := fun A a d => (Ret a, d, []).

#[export] Instance M_bind : MBind M := fun A B k m d =>
  match m d with
  | (Ret a, d', l) => let '(r, d'', l') := k a d' in (r, d'', l ++ l')
  | (Throw e, d', l) => (Throw e, d', l)
  end.

Definition throw {A} (e : error) : M A := fun d => (Throw e, d, []).

Definition lift {A} (o : outcome A) : M A := fun d => (o, d, []).

(** [try { body } catch (error) { handler }] *)
Definition try_catch {A} (body : M A) (handler : error -> M A) : M A := fun d =>
  match body d with
  | (Ret a, d', l) => (Ret a, d', l)
  | (Throw e, d', l) => let '(r, d'', l') := handler e d' in (r, d'', l ++ l')
  end.

(** One call on the client: [run] reads the database and answers or rejects,
    leaving the database [write] makes of it when it answers. *)
Definition query {A} (c : call) (run : Db -> outcome A) (write : Db -> Db) : M A :=
  fun d =>
    match run d with
    | Ret a => (Ret a, write d, [c])
    | Throw e => (Throw e, d, [c])
    end.

(** *** What a query returns: a row with the relations it was asked to include

    The scalar columns, and of the relations those the query asked for. *)

Inductive include : Type :=
| IncludeNothing          (* no [include] *)
| IncludeTags             (* { tags: true } *)
| IncludeSummary          (* tags, and the model's name and provider image *)
| IncludeAll.             (* user, model, messages, tags *)

(** [model: { select: { name, provider: { select: { image } } } }] *)
Module Summary.
Record t : Type := { name : jsstring; image : option jsstring }.
End Summary.

Module View.
Record t : Type := {
  id : Z;
  row : Conversation.t;                 (* the scalar columns (its tag set is
                                           empty unless the tags are included) *)
  tags : option (gset Z);               (* include: { tags: true } *)
  user : option User.t;                 (* include: { user: true } *)
  model : option Model.t;               (* include: { model: true } *)
  summary : option Summary.t;           (* include: { model: { select: ... } } *)
  messages : option (list Message.t)    (* include: { messages: true } *)
}.
End View.

(** The row without its relation to the tags. *)
Definition scalars (c : Conversation.t) : Conversation.t :=
  {| Conversation.idUser := Conversation.idUser c;
     Conversation.idModel := Conversation.idModel c;
     Conversation.title := Conversation.title c;
     Conversation.parameters := Conversation.parameters c;
     Conversation.active := Conversation.active c;
     Conversation.useGlobalParameters := Conversation.useGlobalParameters c;
     Conversation.tags := ∅ |}.

(** The model's name and the image of its provider. *)
Definition model_summary (d : Db) (c : Conversation.t) : option Summary.t :=
  m ← models d !! Conversation.idModel c;
  Some {| Summary.name := Model.name m;
          Summary.image := Provider.image <$> providers d !! Model.idProvider m |}.

Definition messages_of (d : Db) (idConversation : Z) : list Message.t :=
  (map_to_list
     (filter (fun kv => Message.idConversation kv.2 = idConversation) (messages d))).*2.

Definition view (inc : include) (d : Db) (id : Z) (c : Conversation.t) : View.t :=
  match inc with
  | IncludeNothing =>
      {| View.id := id; View.row := scalars c; View.tags := None;
         View.user := None; View.model := None; View.summary := None;
         View.messages := None |}
  | IncludeTags =>
      {| View.id := id; View.row := c; View.tags := Some (Conversation.tags c);
         View.user := None; View.model := None; View.summary := None;
         View.messages := None |}
  | IncludeSummary =>
      {| View.id := id; View.row := c; View.tags := Some (Conversation.tags c);
         View.user := None; View.model := None;
         View.summary := model_summary d c;
         View.messages := None |}
  | IncludeAll =>
      {| View.id := id; View.row := c; View.tags := Some (Conversation.tags c);
         View.user := users d !! Conversation.idUser c;
         View.model := models d !! Conversation.idModel c; View.summary := None;
         View.messages := Some (messages_of d id) |}
  end.

Arguments view : simpl never.

(** *** Queries

    [findUnique] resolves to [null] when no row matches; [update] and
    [delete] reject with "record not found" instead. A unique [where] with an
    undefined key is refused by the client; in a non-unique [where] an
    undefined field filters nothing. An id that does not fit the [Int] column
    it is compared with is refused in every [where]. *)

(** The id of a unique [where]. *)
Definition unique_key (id : option Z) : outcome Z :=
  match id with
  | None => Throw PrismaValidationError
  | Some i => if fits i then Ret i else Throw PrismaValueOutOfRange
  end.

(** The id of a non-unique [where]. *)
Definition filter_key (id : option Z) : outcome (option Z) :=
  match id with
  | None => Ret None
  | Some i => if fits i then Ret (Some i) else Throw PrismaValueOutOfRange
  end.

Definition outcome_bind {A B} (o : outcome A) (k : A -> outcome B) : outcome B :=
  match o with
  | Ret a => k a
  | Throw e => Throw e
  end.

Definition user_findUnique (id : option Z) : M (option User.t) :=
  query (UserFindUnique id)
    (fun d => outcome_bind (unique_key id) (fun i => Ret (users d !! i)))
    (fun d => d).

Definition model_findUnique (id : option Z) : M (option Model.t) :=
  query (ModelFindUnique id)
    (fun d => outcome_bind (unique_key id) (fun i => Ret (models d !! i)))
    (fun d => d).

Definition conversation_findUnique (id : option Z) (inc : include)
    : M (option View.t) :=
  query (ConversationFindUnique id)
    (fun d => outcome_bind (unique_key id)
                (fun i => Ret (view inc d i <$> conversations d !! i)))
    (fun d => d).

Definition owned_by (idUser : option Z) (c : Conversation.t) : bool :=
  match idUser with
  | None => true
  | Some u => Conversation.idUser c =? u
  end.

Arguments owned_by : simpl never.

(** [findMany({ where: { idUser, active: true } })] *)
Definition conversation_findMany_active (idUser : option Z) (inc : include)
    : M (list View.t) :=
  query (ConversationFindMany idUser)
    (fun d =>
       outcome_bind (filter_key idUser) (fun idUser =>
       Ret ((fun kv => view inc d kv.1 kv.2) <$>
            map_to_list
              (filter (fun kv => owned_by idUser kv.2 && Conversation.active kv.2 = true)
                      (conversations d)))))
    (fun d => d).

(** [connect] and [set] reject when one of the tags they name does not
    exist (an id that does not fit the column names no tag). *)
Definition all_tags_exist (d : Db) (ids : list Z) : bool :=
  forallb (fun i => bool_decide (is_Some (tag_rows d !! i))) ids.

(** The rejection: of the ids themselves when one does not fit the column,
    of the relation otherwise. *)
Definition missing_tag (ids : list Z) : error :=
  if forallb fits ids then PrismaRelatedRecordNotFound else PrismaValueOutOfRange.

Module CreateData.
Record t : Type := {
  idUser : option Z;
  idModel : option Z;
  title : option jsstring;
  parameters : option json;            (* [undefined]: the column stays null *)
  active : bool;
  useGlobalParameters : bool;
  connect : option (list Z)            (* tags: { connect: [...] } *)
}.
End CreateData.

(** The row [create] sends to the database. A required column left
    [undefined], or an id that does not fit its column, is refused by the
    client, before anything reaches the database. *)
Definition new_conversation (data : CreateData.t) : outcome Conversation.t :=
  match CreateData.idUser data, CreateData.idModel data, CreateData.title data with
  | Some u, Some m, Some t =>
      if negb (fits u && fits m) then Throw PrismaValueOutOfRange
      else Ret {| Conversation.idUser := u;
                  Conversation.idModel := m;
                  Conversation.title := t;
                  Conversation.parameters := default JNull (CreateData.parameters data);
                  Conversation.active := CreateData.active data;
                  Conversation.useGlobalParameters := CreateData.useGlobalParameters data;
                  Conversation.tags := list_to_set (default [] (CreateData.connect data)) |}
  | _, _, _ => Throw PrismaValidationError
  end.

(** What the database makes of the insert: a sequence that is exhausted
    gives no id; an id that is taken fails the insert of the row, and a tag
    that does not exist fails the connection that follows it. *)
Definition insert_check (d : Db) (data : CreateData.t) : outcome unit :=
  if negb (fits (next_conversation_id d)) then Throw PrismaValueOutOfRange
  else if bool_decide (is_Some (conversations d !! next_conversation_id d))
  then Throw PrismaUniqueConstraint
  else if negb (all_tags_exist d (default [] (CreateData.connect data)))
  then Throw (missing_tag (default [] (CreateData.connect data)))
  else Ret ().

(** [create]: the row takes the next id of the sequence. An insert that
    fails has drawn its id all the same: the sequence does not go back. *)
Definition conversation_create (data : CreateData.t) (inc : include) : M View.t :=
  fun d =>
    match new_conversation data with
    | Ret c =>
        let id := next_conversation_id d in
        match insert_check d data with
        | Ret _ =>
            let d' := bump_conversation_id (set_conversations (insert id c) d) in
            (Ret (view inc d' id c), d', [ConversationCreate])
        | Throw e =>
            (Throw e, if fits id then bump_conversation_id d else d, [ConversationCreate])
        end
    | Throw e => (Throw e, d, [ConversationCreate])
    end.

Module UpdateData.
Record t : Type := {
  set_tags : option (list Z);          (* tags: { set: [...] } *)
  title : option jsstring;
  parameters : option json;
  active : option bool
}.
End UpdateData.

(** The row after an update: a field left [undefined] keeps its value. *)
Definition apply_update (data : UpdateData.t) (c : Conversation.t) : Conversation.t :=
  {| Conversation.idUser := Conversation.idUser c;
     Conversation.idModel := Conversation.idModel c;
     Conversation.title := default (Conversation.title c) (UpdateData.title data);
     Conversation.parameters :=
       default (Conversation.parameters c) (UpdateData.parameters data);
     Conversation.active := default (Conversation.active c) (UpdateData.active data);
     Conversation.useGlobalParameters := Conversation.useGlobalParameters c;
     Conversation.tags :=
       match UpdateData.set_tags data with
       | Some ids => list_to_set ids
       | None => Conversation.tags c
       end |}.

Definition updated_conversation (d : Db) (id : option Z) (data : UpdateData.t)
    : outcome (Z * Conversation.t) :=
  outcome_bind (unique_key id) (fun i =>
    match conversations d !! i with
    | None => Throw PrismaRecordNotFound
    | Some c =>
        if all_tags_exist d (default [] (UpdateData.set_tags data))
        then Ret (i, apply_update data c)
        else Throw (missing_tag (default [] (UpdateData.set_tags data)))
    end).

(** [update] resolves to the updated row; the option is there for the
    callers that test the result against [null]. *)
Definition conversation_update (id : option Z) (data : UpdateData.t) (inc : include)
    : M (option View.t) :=
  fun d =>
    match updated_conversation d id data with
    | Ret (i, c) =>
        let d' := set_conversations (insert i c) d in
        (Ret (Some (view inc d' i c)), d', [ConversationUpdate id])
    | Throw e => (Throw e, d, [ConversationUpdate id])
    end.

(** [updateMany({ where: { idUser }, data })]: the count is that of the rows
    the [where] matches. *)
Definition conversation_updateMany (idUser : option Z) (data : UpdateData.t) : M nat :=
  query (ConversationUpdateMany idUser)
    (fun d =>
       outcome_bind (filter_key idUser) (fun idUser =>
       Ret (size (filter (fun kv => owned_by idUser kv.2 = true) (conversations d)))))
    (set_conversations
       (fun m => (fun c => if owned_by idUser c then apply_update data c else c) <$> m)).

(** [delete] resolves to the deleted row; the option is there for the
    caller's test against [null]. *)
Definition conversation_delete (id : option Z) : M (option Conversation.t) :=
  query (ConversationDelete id)
    (fun d => outcome_bind (unique_key id) (fun i =>
                match conversations d !! i with
                | None => Throw PrismaRecordNotFound
                | Some c => Ret (Some c)
                end))
    (set_conversations (fun m => match id with Some i => delete i m | None => m end)).

Definition in_conversation (idConversation : option Z) (m : Message.t) : bool :=
  match idConversation with
  | None => true
  | Some i => Message.idConversation m =? i
  end.

(** [deleteMany({ where: { idConversation } })] *)
Definition message_deleteMany (idConversation : option Z) : M nat :=
  query (MessageDeleteMany idConversation)
    (fun d =>
       outcome_bind (filter_key idConversation) (fun idConversation =>
       Ret (size (filter (fun kv => in_conversation idConversation kv.2 = true)
                         (messages d)))))
    (set_messages (filter (fun kv => in_conversation idConversation kv.2 = false))).

(** ** The data-access module *)

Inductive text : Type :=
| Literal (s : string)               (* a message written in the source *)
| ErrorMessage (e : error).          (* [error.message] of a caught error *)

Module PrismaResponse.
Record t (T : Type) : Type := {
  status : nat;
  data : option T;
  message : option text
}.
Arguments status {T} _.
Arguments data {T} _.
Arguments message {T} _.
End PrismaResponse.

Definition failure {T} (status : nat) (message : string) : PrismaResponse.t T :=
  {| PrismaResponse.status := status; PrismaResponse.data := None;
     PrismaResponse.message := Some (Literal message) |}.

Definition internal_error {T} (e : error) : PrismaResponse.t T :=
  {| PrismaResponse.status := 500; PrismaResponse.data := None;
     PrismaResponse.message := Some (ErrorMessage e) |}.

Definition success {T} (status : nat) (data : option T) (message : option string)
    : PrismaResponse.t T :=
  {| PrismaResponse.status := status; PrismaResponse.data := data;
     PrismaResponse.message := Literal <$> message |}.

(** [catch (error) { return { status: 500, message: error.message } }] *)
Definition catch_500 {T} (body : M (PrismaResponse.t T)) : M (PrismaResponse.t T) :=
  try_catch body (fun e => mret (internal_error e)).

Module ConversationDataInput.
Record t : Type := {
  idUser : option Z;
  idModel : option Z;
  title : option jsstring;
  tags : option (list Z);              (* { id }[] *)
  parameters : option json;
  active : option bool;
  useGlobalParameters : bool
}.
End ConversationDataInput.

Module UpdatedInfo.
Record t : Type := {
  tags : option (list Z);              (* Tag[], each named by its id *)
  title : option jsstring
}.
End UpdatedInfo.

(** [String(x)] of a nullable string column. *)
Definition js_String (x : option jsstring) : jsstring := default (lit "null") x.

Section DataAccess.

(** The runtime's [JSON.parse] ([None]: it throws a SyntaxError) and
    [JSON.stringify], the methods of its prototypes, and the validator the
    module imports from [prisma-input-validation]. *)
Variable JSON_parse : jsstring -> option json.
Variable JSON_stringify : json -> jsstring.
Variable methods : prototype -> jsstring -> bool.
Variable areValidModelParameters : json -> bool.

Definition parse (s : jsstring) : M json :=
  match JSON_parse s with
  | Some v => mret v
  | None => throw SyntaxError
  end.

(** The user's global parameters as [createConversation] reads them: the
    parsed text, or the empty object when the column is null or empty
    ([None]: the text does not parse). *)
Definition parsed_globals (user : User.t) : option json :=
  if truthy (User.globalParameters user)
  then JSON_parse (js_String (User.globalParameters user))
  else Some empty_object.

(** [JSON.stringify(m)]: a string, or [undefined] for a function. *)
Definition stringify (m : member) : option json :=
  match m with
  | Data v | Prototype v => Some (JStr (JSON_stringify v))
  | Method => None
  end.

(** [parameters ? JSON.stringify(parameters) : JSON.stringify({})] *)
Definition parameters_data (parameters : option member) : option json :=
  match parameters with
  | Some p => if truthy p then stringify p else Some (JStr (JSON_stringify empty_object))
  | None => Some (JStr (JSON_stringify empty_object))
  end.

(** The [parameters] column of the row [createConversation] inserts (null
    when the data leave it [undefined]). *)
Definition stored_parameters (useGlobalParameters : bool) (modelParameters : option member)
    : json :=
  default JNull (parameters_data (if useGlobalParameters then modelParameters else None)).

Definition getAllConversationsByUserId (idUser : option Z)
    : M (PrismaResponse.t (list View.t)) :=
  catch_500 (
    if negb (truthy idUser) || js_lt0 idUser then
      mret (failure 400 "Invalid user ID")
    else
      userExists ← user_findUnique idUser;
      if negb (bool_decide (is_Some userExists)) then
        mret (failure 404 "User not found")
      else
        conversations ← conversation_findMany_active idUser IncludeSummary;
        if bool_decide (length conversations = 0%nat) then
          mret (failure 404 "No conversations found for this user")
        else
          mret (success 200 (Some conversations) None)).

Definition getConversationById (id : option Z) : M (PrismaResponse.t View.t) :=
  catch_500 (
    if negb (truthy id) || js_le0 id then
      mret (failure 400 "Invalid conversation ID")
    else
      conversation ← conversation_findUnique id IncludeAll;
      match conversation with
      | None => mret (failure 404 "Conversation not found")
      | Some _ => mret (success 200 conversation None)
      end).

Definition createConversation (input : option ConversationDataInput.t)
    : M (PrismaResponse.t View.t) :=
  catch_500 (
    let idUser := input ≫= ConversationDataInput.idUser in
    let idModel := input ≫= ConversationDataInput.idModel in
    let title := input ≫= ConversationDataInput.title in
    if negb (truthy idUser) || negb (truthy idModel) || negb (truthy title) then
      mret (failure 400 "Invalid input for creating conversation")
    else
      user ← user_findUnique idUser;
      match user with
      | None => mret (failure 404 "User not found")
      | Some user =>
          model ← model_findUnique idModel;
          match model with
          | None => mret (failure 404 "Model not found")
          | Some model =>
              userGlobalParameters ←
                (if truthy (User.globalParameters user)
                 then parse (js_String (User.globalParameters user))
                 else mret empty_object);
              modelParameters ←
                lift (get_property methods userGlobalParameters (Model.name model));
              input ← (match input with
                       | Some i => mret i
                       | None => throw TypeError
                       end);
              let parameters :=
                if ConversationDataInput.useGlobalParameters input
                then modelParameters else None in
              newConversation ←
                conversation_create
                  {| CreateData.idUser := ConversationDataInput.idUser input;
                     CreateData.idModel := ConversationDataInput.idModel input;
                     CreateData.title := ConversationDataInput.title input;
                     CreateData.useGlobalParameters :=
                       ConversationDataInput.useGlobalParameters input;
                     CreateData.parameters := parameters_data parameters;
                     CreateData.connect := ConversationDataInput.tags input;
                     CreateData.active := true |}
                  IncludeAll;
              mret (success 201 (Some newConversation) None)
          end
      end).

Definition updateConversationById (id : option Z) (updatedInfo : UpdatedInfo.t)
    (includeRelatedEntities : bool) : M (PrismaResponse.t View.t) :=
  catch_500 (
    if negb (truthy id) || js_le0 id then
      mret (failure 400 "Invalid conversation ID")
    else if truthy (UpdatedInfo.title updatedInfo)
            && bool_decide (trim <$> UpdatedInfo.title updatedInfo = Some [])
    then
      mret (failure 400 "Title cannot be empty")
    else
      conversation ←
        conversation_update id
          {| UpdateData.set_tags := UpdatedInfo.tags updatedInfo;
             UpdateData.title :=
               if truthy (UpdatedInfo.title updatedInfo)
               then UpdatedInfo.title updatedInfo else None;
             UpdateData.parameters := None;
             UpdateData.active := None |}
          (if includeRelatedEntities then IncludeAll else IncludeTags);
      match conversation with
      | None => mret (failure 404 "Conversation not found")
      | Some _ => mret (success 200 conversation None)
      end).

Definition updateConversationParameters (id : option Z) (parameters : json)
    : M (PrismaResponse.t View.t) :=
  if negb (areValidModelParameters parameters) then
    mret (failure 400 "Invalid model parameters")
  else
    catch_500 (
      conversation ←
        conversation_update id
          {| UpdateData.set_tags := None; UpdateData.title := None;
             UpdateData.parameters := Some parameters;
             UpdateData.active := None |}
          IncludeNothing;
      mret (success 200 conversation None)).

Definition deactivate : UpdateData.t :=
  {| UpdateData.set_tags := None; UpdateData.title := None;
     UpdateData.parameters := None; UpdateData.active := Some false |}.

Definition deactivateConversationById (id : option Z) : M (PrismaResponse.t unit) :=
  catch_500 (
    if negb (truthy id) || js_le0 id then
      mret (failure 400 "Invalid conversation ID")
    else
      conversation ← conversation_update id deactivate IncludeNothing;
      match conversation with
      | None => mret (failure 404 "Conversation not found")
      | Some _ => mret (success 200 None (Some "Conversation marked as inactive"%string))
      end).

Definition deactivateAllConversationsByUserId (idUser : option Z)
    : M (PrismaResponse.t nat) :=
  catch_500 (
    userExists ← user_findUnique idUser;
    if negb (bool_decide (is_Some userExists)) then
      mret (failure 404 "User ID does not exist")
    else
      count ← conversation_updateMany idUser deactivate;
      if bool_decide (count = 0%nat) then
        mret (failure 404 "No conversations found for this user")
      else
        mret (success 200 (Some count) (Some "Conversations marked as inactive"%string))).

Definition deleteConversationById (id : option Z) : M (PrismaResponse.t unit) :=
  catch_500 (
    if negb (truthy id) || js_le0 id then
      mret (failure 400 "Invalid conversation ID")
    else
      message_deleteMany id;;
      conversation ← conversation_delete id;
      match conversation with
      | None => mret (failure 404 "Conversation not found")
      | Some _ =>
          mret (success 200 None
                  (Some "Conversation and associated messages successfully deleted"%string))
      end).

End DataAccess.

(** ** The parameters modal

    The state logic of [ModalParametersGPT]: its [useState] cells, the effect
    that resolves the parameter set, the event handlers, and [handleSave]. *)

Module Parameters.
Record t : Type := {
  userContext : jsstring;
  responseContext : jsstring;
  temperature : number
}.
End Parameters.

(** [prismaUser.globalParameters] as the component reads it: each field may
    be missing. *)
Module GlobalParameters.
Record t : Type := {
  userContext : option jsstring;
  responseContext : option jsstring;
  temperature : option number
}.
End GlobalParameters.

Module ModalParametersGPT.

(** What a render receives from outside: the props, and the user of
    [PrismaUserContext] (no context or no user: [None]; a user without
    global parameters: [Some None]). *)
Record Env : Type := {
  userContext : jsstring;
  responseContext : jsstring;
  temperature : number;
  prismaUser : option (option GlobalParameters.t)
}.

Record State : Type := {
  isSelected : bool;
  updatedUserContext : jsstring;
  updatedResponseContext : jsstring;
  updatedTemperature : number;
  globalFormParams : Parameters.t
}.

Definition initial (env : Env) : State :=
  {| isSelected := false;
     updatedUserContext := userContext env;
     updatedResponseContext := responseContext env;
     updatedTemperature := temperature env;
     globalFormParams :=
       {| Parameters.userContext := userContext env;
          Parameters.responseContext := responseContext env;
          Parameters.temperature := temperature env |} |}.

Definition setGlobalFormParams (p : Parameters.t) (s : State) : State :=
  {| isSelected := isSelected s;
     updatedUserContext := updatedUserContext s;
     updatedResponseContext := updatedResponseContext s;
     updatedTemperature := updatedTemperature s;
     globalFormParams := p |}.

Definition setUpdatedUserContext (v : jsstring) (s : State) : State :=
  {| isSelected := isSelected s;
     updatedUserContext := v;
     updatedResponseContext := updatedResponseContext s;
     updatedTemperature := updatedTemperature s;
     globalFormParams := globalFormParams s |}.

Definition setUpdatedResponseContext (v : jsstring) (s : State) : State :=
  {| isSelected := isSelected s;
     updatedUserContext := updatedUserContext s;
     updatedResponseContext := v;
     updatedTemperature := updatedTemperature s;
     globalFormParams := globalFormParams s |}.

Definition setUpdatedTemperature (v : number) (s : State) : State :=
  {| isSelected := isSelected s;
     updatedUserContext := updatedUserContext s;
     updatedResponseContext := updatedResponseContext s;
     updatedTemperature := v;
     globalFormParams := globalFormParams s |}.

Definition setIsSelected (b : bool) (s : State) : State :=
  {| isSelected := b;
     updatedUserContext := updatedUserContext s;
     updatedResponseContext := updatedResponseContext s;
     updatedTemperature := updatedTemperature s;
     globalFormParams := globalFormParams s |}.

(** [prismaUser?.globalParameters?.field] *)
Definition global {A} (field : GlobalParameters.t -> option A) (env : Env) : option A :=
  u ← prismaUser env; g ← u; field g.

(** [x || y] *)
Definition js_or {A} `{Truthy A} (x : option A) (y : A) : A :=
  match x with
  | Some a => if truthy a then a else y
  | None => y
  end.

Definition space : jsstring := [0x20%N].

(** [`${a} ${b}`] *)
Definition template (a b : jsstring) : jsstring := a ++ space ++ b.

(** The body of the effect. *)
Definition effect (env : Env) (s : State) : State :=
  if isSelected s then
    let globalUserContext := js_or (global GlobalParameters.userContext env) [] in
    let globalResponseContext := js_or (global GlobalParameters.responseContext env) [] in
    let globalTemperature :=
      js_or (global GlobalParameters.temperature env) (temperature env) in
    let concatenatedUserContext := template globalUserContext (updatedUserContext s) in
    let concatenatedResponseContext :=
      template globalResponseContext (updatedResponseContext s) in
    let finalTemperature := globalTemperature in
    setGlobalFormParams
      {| Parameters.userContext := concatenatedUserContext;
         Parameters.responseContext := concatenatedResponseContext;
         Parameters.temperature := finalTemperature |} s
  else
    setGlobalFormParams
      {| Parameters.userContext := updatedUserContext s;
         Parameters.responseContext := updatedResponseContext s;
         Parameters.temperature := updatedTemperature s |} s.

(** The effect's dependency array, and its comparison between two renders
    ([Object.is], entry by entry). *)
Record Deps : Type := {
  dep_isSelected : bool;
  dep_globalResponseContext : option jsstring;
  dep_globalTemperature : option number;
  dep_globalUserContext : option jsstring;
  dep_temperature : number;
  dep_updatedResponseContext : jsstring;
  dep_updatedTemperature : number;
  dep_updatedUserContext : jsstring
}.

Definition deps (env : Env) (s : State) : Deps :=
  {| dep_isSelected := isSelected s;
     dep_globalResponseContext := global GlobalParameters.responseContext env;
     dep_globalTemperature := global GlobalParameters.temperature env;
     dep_globalUserContext := global GlobalParameters.userContext env;
     dep_temperature := temperature env;
     dep_updatedResponseContext := updatedResponseContext s;
     dep_updatedTemperature := updatedTemperature s;
     dep_updatedUserContext := updatedUserContext s |}.

Definition same_option_number (a b : option number) : bool :=
  match a, b with
  | None, None => true
  | Some x, Some y => same_number x y
  | _, _ => false
  end.

Definition same_deps (a b : Deps) : bool :=
  bool_decide (dep_isSelected a = dep_isSelected b)
  && bool_decide (dep_globalResponseContext a = dep_globalResponseContext b)
  && same_option_number (dep_globalTemperature a) (dep_globalTemperature b)
  && bool_decide (dep_globalUserContext a = dep_globalUserContext b)
  && same_number (dep_temperature a) (dep_temperature b)
  && bool_decide (dep_updatedResponseContext a = dep_updatedResponseContext b)
  && same_number (dep_updatedTemperature a) (dep_updatedTemperature b)
  && bool_decide (dep_updatedUserContext a = dep_updatedUserContext b).

Inductive event : Type :=
| ChangeUserContext (value : jsstring)        (* first textarea's onChange *)
| ChangeResponseContext (value : jsstring)    (* second textarea's onChange *)
| ChangeTemperature (value : number)          (* slider's onValueChange, value[0] *)
| Toggle (value : bool)                       (* switch's onValueChange *)
| Rerender (env : Env).                       (* new props or context from the parent *)

(** The state updates of an event's handler. *)
Definition handle (ev : event) (c : Env * State) : Env * State :=
  let '(env, s) := c in
  let p := globalFormParams s in
  match ev with
  | ChangeUserContext v =>
      (env, setUpdatedUserContext v
              (setGlobalFormParams
                 {| Parameters.userContext := v;
                    Parameters.responseContext := Parameters.responseContext p;
                    Parameters.temperature := Parameters.temperature p |} s))
  | ChangeResponseContext v =>
      (env, setUpdatedResponseContext v
              (setGlobalFormParams
                 {| Parameters.userContext := Parameters.userContext p;
                    Parameters.responseContext := v;
                    Parameters.temperature := Parameters.temperature p |} s))
  | ChangeTemperature v =>
      (env, setUpdatedTemperature v
              (setGlobalFormParams
                 {| Parameters.userContext := Parameters.userContext p;
                    Parameters.responseContext := Parameters.responseContext p;
                    Parameters.temperature := v |} s))
  | Toggle b => (env, setIsSelected b s)
  | Rerender env' => (env', s)
  end.

(** An event, the render it causes, and the effect when a dependency
    changed. *)
Definition step (c : Env * State) (ev : event) : Env * State :=
  let c' := handle ev c in
  if same_deps (deps c.1 c.2) (deps c'.1 c'.2) then c'
  else (c'.1, effect c'.1 c'.2).

(** The first render: the effect always runs. *)
Definition mount (env : Env) : Env * State := (env, effect env (initial env)).

Definition run (env : Env) (events : list event) : Env * State :=
  fold_left step events (mount env).

(** [handleSave]: the argument [saveParameters] is called with. *)
Definition handleSave (s : State) : Parameters.t := globalFormParams s.

(** The locally typed and edited values, as a parameter set. *)
Definition local_values (s : State) : Parameters.t :=
  {| Parameters.userContext := updatedUserContext s;
     Parameters.responseContext := updatedResponseContext s;
     Parameters.temperature := updatedTemperature s |}.

(** With the toggle off, the form holds the local values. *)
Definition off_invariant (c : Env * State) : Prop :=
  isSelected c.2 = false -> globalFormParams c.2 = local_values c.2.

(** A dependency changed between the render before [ev] and the one after. *)
Definition effect_runs (c : Env * State) (ev : event) : Prop :=
  same_deps (deps c.1 c.2) (deps (handle ev c).1 (handle ev c).2) = false.

End ModalParametersGPT.

(** ** Notions the properties are stated with *)

(** An id a caller left out, or one that is zero or negative. *)
Definition invalid_id (id : option Z) : Prop :=
  match id with
  | None => True
  | Some z => z <= 0
  end.

(** The title test of [updateConversationById]. *)
Definition blank_title (title : option jsstring) : bool :=
  truthy title && bool_decide (trim <$> title = Some []).

(** The database between the two calls of [deleteConversationById]. *)
Definition without_messages (id : Z) (db : Db) : Db :=
  set_messages (filter (fun kv => in_conversation (Some id) kv.2 = false)) db.

(** The conversations a user owns, active or not. *)
Definition owned (idUser : Z) (db : Db) : gmap Z Conversation.t :=
  filter (fun kv => Conversation.idUser kv.2 = idUser) (conversations db).

(** ** Sample data *)

Module Sample.

Definition alice : User.t := {| User.globalParameters := None |}.

Definition quoted (s : string) : jsstring := [0x22%N] ++ lit s ++ [0x22%N].

(** The text [{"gpt-4":{"temperature":0.5}}] and the value it denotes. *)
Definition globals_text : jsstring :=
  lit "{" ++ quoted "gpt-4" ++ lit ":{" ++ quoted "temperature" ++ lit ":0.5}}".

Definition half : json := JObj [(lit "temperature", JNum (Num (1 # 2)))].

Definition half_text : jsstring := lit "{" ++ quoted "temperature" ++ lit ":0.5}".

Definition globals : json := JObj [(lit "gpt-4", half)].

Definition bob : User.t := {| User.globalParameters := Some globals_text |}.

(** [JSON.parse] and [JSON.stringify] on the texts and values above. *)
Definition JSON_parse (s : jsstring) : option json :=
  if decide (s = globals_text) then Some globals else None.

Definition JSON_stringify (v : json) : jsstring :=
  match v with
  | JObj [] => lit "{}"
  | JObj [(_, JNum _)] => half_text
  | JObj [(_, JObj _)] => globals_text
  | _ => lit "null"
  end.

(** A runtime's prototypes: some of the methods every edition has. *)
Definition methods (p : prototype) (key : jsstring) : bool :=
  match p with
  | ArrayPrototype => bool_decide (key ∈ lit <$> ["push"; "pop"; "join"; "slice"]%string)
  | StringPrototype => bool_decide (key ∈ lit <$> ["charAt"; "slice"; "trim"]%string)
  | NumberPrototype => bool_decide (key ∈ lit <$> ["toFixed"; "toPrecision"]%string)
  | BooleanPrototype => false
  end.

Definition gpt4 : Model.t := {| Model.name := lit "gpt-4"; Model.idProvider := 1 |}.

Definition chat : Conversation.t :=
  {| Conversation.idUser := 1; Conversation.idModel := 2;
     Conversation.title := lit "Test";
     Conversation.parameters := JObj [];
     Conversation.active := true;
     Conversation.useGlobalParameters := false;
     Conversation.tags := {[ 7 ]} |}.

Definition archived : Conversation.t :=
  {| Conversation.idUser := 1; Conversation.idModel := 2;
     Conversation.title := lit "Old";
     Conversation.parameters := JObj [];
     Conversation.active := false;
     Conversation.useGlobalParameters := false;
     Conversation.tags := ∅ |}.

Definition hello : Message.t :=
  {| Message.idConversation := 1; Message.role := lit "user";
     Message.content := lit "hi" |}.

(** Two users, the first with two conversations (one of them already
    inactive), of which the first holds one message and one tag. *)
Definition db : Db :=
  {| users := {[ 1 := alice; 2 := bob ]};
     providers := {[ 1 := {| Provider.image := lit "openai.png" |} ]};
     models := {[ 2 := gpt4 ]};
     tag_rows := {[ 7 := {| Tag.name := lit "work" |}; 8 := {| Tag.name := lit "home" |} ]};
     conversations := {[ 1 := chat; 2 := archived ]};
     messages := {[ 1 := hello ]};
     next_conversation_id := 3;
     ids_fit := I |}.

Definition empty : Db :=
  {| users := ∅; providers := ∅; models := ∅; tag_rows := ∅;
     conversations := ∅; messages := ∅; next_conversation_id := 1;
     ids_fit := I |}.

Definition blank : jsstring := lit "  ".

Definition input (idUser : Z) (useGlobalParameters : bool) : ConversationDataInput.t :=
  {| ConversationDataInput.idUser := Some idUser;
     ConversationDataInput.idModel := Some 2;
     ConversationDataInput.title := Some (lit "Test");
     ConversationDataInput.tags := Some [7];
     ConversationDataInput.parameters := None;
     ConversationDataInput.active := Some false;
     ConversationDataInput.useGlobalParameters := useGlobalParameters |}.

End Sample.

(** ** The message list

    The state logic of [MessageList]: what it renders for its messages, its
    [autoScroll] cell, the effect that depends on it, and the button. *)

Module MessageList.

(** A message of the chat, as the component reads it. *)
Record Message : Type := { role : jsstring; content : jsstring }.

(** One [MessageItem] (followed by its divider). *)
Record Item : Type := {
  key : nat;
  message : Message;
  senderImage : jsstring
}.

(** [messages.map((message, index) => ...)] *)
Definition render (messages : list Message) (userImage providerImage : jsstring)
    : list Item :=
  imap (fun index message =>
          {| key := index; message := message;
             senderImage :=
               if decide (role message = lit "user") then userImage
               else providerImage |})
       messages.

(** The [autoScroll] cell, and the calls made so far on
    [messagesEndRef.current.scrollIntoView]. *)
Record State : Type := { autoScroll : bool; scrolls : nat }.

Definition scrollToBottom (s : State) : State :=
  {| autoScroll := autoScroll s; scrolls := S (scrolls s) |}.

Definition setAutoScroll (b : bool) (s : State) : State :=
  {| autoScroll := b; scrolls := scrolls s |}.

Definition initial : State := {| autoScroll := true; scrolls := 0 |}.

(** The body of the effect, for a render whose [autoScroll] is that of [s]. *)
Definition effect (s : State) : State :=
  let s := if autoScroll s then setAutoScroll false (scrollToBottom s) else s in
  scrollToBottom s.

(** What follows a render of state [s], [prev] being the dependency array
    of the render before ([None] on mount): the effect runs when [autoScroll]
    changed, and the state it sets is rendered in turn. [fuel] bounds the
    number of renders. *)
Fixpoint commit (fuel : nat) (prev : option bool) (s : State) : State :=
  match fuel with
  | O => s
  | S fuel =>
      if bool_decide (prev = Some (autoScroll s)) then s
      else commit fuel (Some (autoScroll s)) (effect s)
  end.

Inductive event : Type :=
| Click                                   (* the scroll-to-bottom button *)
| Rerender (messages : list Message).     (* new props from the parent *)

Definition mount (fuel : nat) : State := commit fuel None initial.

(** An event and the renders it causes. The button's handler is
    [setAutoScroll(true); scrollToBottom()]. *)
Definition step (fuel : nat) (s : State) (ev : event) : State :=
  match ev with
  | Click => commit fuel (Some (autoScroll s)) (scrollToBottom (setAutoScroll true s))
  | Rerender _ => commit fuel (Some (autoScroll s)) s
  end.

Definition run (fuel : nat) (events : list event) : State :=
  fold_left (step fuel) events (mount fuel).

Definition is_click (ev : event) : bool :=
  match ev with
  | Click => true
  | Rerender _ => false
  end.

Definition clicks (events : list event) : nat :=
  length (List.filter is_click events).

End MessageList.

(** ** Further notions the properties are stated with *)

Definition is_write (c : call) : bool :=
  match c with
  | UserFindUnique _ | ModelFindUnique _
  | ConversationFindUnique _ | ConversationFindMany _ => false
  | ConversationCreate | ConversationUpdate _ | ConversationUpdateMany _
  | ConversationDelete _ | MessageDeleteMany _ => true
  end.

(** Referential integrity of one conversation row: its id was drawn from
    the sequence, and its user, model and tags exist. *)
Definition conversation_wf (d : Db) (id : Z) (c : Conversation.t) : Prop :=
  0 < id < next_conversation_id d
  /\ is_Some (users d !! Conversation.idUser c)
  /\ is_Some (models d !! Conversation.idModel c)
  /\ (forall t, t ∈ Conversation.tags c -> is_Some (tag_rows d !! t)).

(** Referential integrity of the database: every conversation row is well
    formed and every message belongs to a conversation that exists. *)
Definition db_wf (d : Db) : Prop :=
  0 < next_conversation_id d
  /\ (forall id c, conversations d !! id = Some c -> conversation_wf d id c)
  /\ (forall k m, messages d !! k = Some m ->
                  is_Some (conversations d !! Message.idConversation m)).

(** What an answer may look like: data only with 200 or 201, and with 400,
    404 or 500 a message and no data. *)
Definition envelope {T} (r : PrismaResponse.t T) : Prop :=
  (PrismaResponse.status r = 200%nat \/ PrismaResponse.status r = 201%nat)
  \/ ((PrismaResponse.status r = 400%nat \/ PrismaResponse.status r = 404%nat
       \/ PrismaResponse.status r = 500%nat)
      /\ PrismaResponse.data r = None
      /\ is_Some (PrismaResponse.message r)).

(** Two inputs that differ at most in [parameters] and [active]. *)
Definition same_but_parameters_and_active (a b : ConversationDataInput.t) : Prop :=
  ConversationDataInput.idUser a = ConversationDataInput.idUser b
  /\ ConversationDataInput.idModel a = ConversationDataInput.idModel b
  /\ ConversationDataInput.title a = ConversationDataInput.title b
  /\ ConversationDataInput.tags a = ConversationDataInput.tags b
  /\ ConversationDataInput.useGlobalParameters a
     = ConversationDataInput.useGlobalParameters b.

(** An answer that reports a failure: 400, 404 or 500, a message, no data. *)
Definition failed {T} (r : PrismaResponse.t T) : Prop :=
  (PrismaResponse.status r = 400%nat \/ PrismaResponse.status r = 404%nat
   \/ PrismaResponse.status r = 500%nat)
  /\ PrismaResponse.data r = None
  /\ is_Some (PrismaResponse.message r).

(** One row under the bulk deactivation of [idUser]'s conversations. *)
Definition deactivate_owned (idUser : option Z) (c : Conversation.t) : Conversation.t :=
  if owned_by idUser c then apply_update deactivate c else c.

(** The title [updateConversationById] writes: the one supplied, unless it
    is missing or empty. *)
Definition new_title (title : option jsstring) (old : jsstring) : jsstring :=
  match title with
  | Some ((_ :: _) as t) => t
  | _ => old
  end.

(** The input test of [createConversation]. *)
Definition creatable (input : option ConversationDataInput.t) : bool :=
  truthy (input ≫= ConversationDataInput.idUser)
  && truthy (input ≫= ConversationDataInput.idModel)
  && truthy (input ≫= ConversationDataInput.title).

Module ModalNotions.
Import ModalParametersGPT.

(** A render caused by the parent, not by the user. *)
Definition is_rerender (ev : event) : bool :=
  match ev with
  | Rerender _ => true
  | _ => false
  end.

(** The user's own events among [events]. *)
Definition user_events (events : list event)
    : list event :=
  List.filter (fun ev => negb (is_rerender ev)) events.

(** A saved context is the local text, alone or after the user's global
    context and a space. *)
Definition context_shape (global_context : option jsstring) (local saved : jsstring)
    : Prop :=
  saved = local
  \/ saved = template (js_or global_context []) local.

(** Both saved contexts have that shape. *)
Definition shaped (c : Env * State) : Prop :=
  context_shape (global GlobalParameters.userContext c.1)
    (updatedUserContext c.2) (Parameters.userContext (globalFormParams c.2))
  /\ context_shape (global GlobalParameters.responseContext c.1)
       (updatedResponseContext c.2) (Parameters.responseContext (globalFormParams c.2)).

(** The cells the user's events write. *)
Definition core (s : State) : bool * jsstring * jsstring * number :=
  (isSelected s, updatedUserContext s, updatedResponseContext s, updatedTemperature s).

End ModalNotions.

(** More sample data: a user whose global parameters are not JSON, and one
    whose global parameters are the text [null]. *)
Module Sample2.

Definition carol : User.t := {| User.globalParameters := Some (lit "oops") |}.

Definition dave : User.t := {| User.globalParameters := Some (lit "null") |}.

Definition JSON_parse (s : jsstring) : option json :=
  if decide (s = lit "null") then Some JNull else Sample.JSON_parse s.

Definition db : Db :=
  {| users := {[ 3 := carol; 4 := dave ]};
     providers := providers Sample.db;
     models := models Sample.db;
     tag_rows := tag_rows Sample.db;
     conversations := ∅;
     messages := ∅;
     next_conversation_id := 1;
     ids_fit := I |}.

(** A model named after a method that every object inherits, and a
    database that has it as its model 2. *)
Definition constructor : Model.t :=
  {| Model.name := lit "constructor"; Model.idProvider := 1 |}.


Definition other_input (idUser : Z) (useGlobalParameters : bool)
    : ConversationDataInput.t :=
  {| ConversationDataInput.idUser := Some idUser;
     ConversationDataInput.idModel := Some 2;
     ConversationDataInput.title := Some (lit "Test");
     ConversationDataInput.tags := Some [7];
     ConversationDataInput.parameters := Some Sample.half;
     ConversationDataInput.active := Some true;
     ConversationDataInput.useGlobalParameters := useGlobalParameters |}.

End Sample2.

(** * Properties *)

(** ** The ids of stored rows *)

Lemma tables_fit (d : Db) :
  keys_fit (users d) = true /\ keys_fit (models d) = true
  /\ keys_fit (tag_rows d) = true /\ keys_fit (conversations d) = true.
Proof.
  pose proof (ids_fit d) as H. rewrite !andb_True, !Is_true_true in H. tauto.
Qed.

Lemma users_fit (d : Db) (i : Z) (u : User.t) : users d !! i = Some u -> fits i = true.
Proof. apply keys_fit_spec, tables_fit. Qed.

Lemma models_fit (d : Db) (i : Z) (m : Model.t) : models d !! i = Some m -> fits i = true.
Proof. apply keys_fit_spec, tables_fit. Qed.

Lemma conversations_fit (d : Db) (i : Z) (c : Conversation.t) :
  conversations d !! i = Some c -> fits i = true.
Proof. apply keys_fit_spec, tables_fit. Qed.

Lemma restrict_insert (d : Db) (i : Z) (c : Conversation.t) :
  fits i = true ->
  restrict (insert i c (conversations d)) = insert i c (conversations d).
Proof.
  intros Hi. apply restrict_fit, keys_fit_spec. intros k x.
  rewrite lookup_insert_Some. intros [[<- _]|[_ Hk]]; [done|].
  by apply (conversations_fit d k x).
Qed.

Lemma restrict_delete (d : Db) (i : Z) :
  restrict (delete i (conversations d)) = delete i (conversations d).
Proof.
  apply restrict_fit, keys_fit_spec. intros k x.
  rewrite lookup_delete_Some. intros [_ Hk]. by apply (conversations_fit d k x).
Qed.

Lemma restrict_fmap (d : Db) (g : Conversation.t -> Conversation.t) :
  restrict (g <$> conversations d) = g <$> conversations d.
Proof.
  apply restrict_fit, keys_fit_spec. intros k x.
  rewrite lookup_fmap_Some. intros (c & _ & Hk). by apply (conversations_fit d k c).
Qed.

Lemma restrict_conversations (d : Db) : restrict (conversations d) = conversations d.
Proof. apply restrict_fit, tables_fit. Qed.

(** Two databases with the same tables and the same sequence are the same. *)
Lemma Db_eq (d d' : Db) :
  users d = users d' -> providers d = providers d' -> models d = models d' ->
  tag_rows d = tag_rows d' -> conversations d = conversations d' ->
  messages d = messages d' -> next_conversation_id d = next_conversation_id d' ->
  d = d'.
Proof.
  destruct d, d'. simpl. intros. subst. f_equal. apply proof_irrel.
Qed.

Lemma conversations_inserted (d : Db) (i : Z) (c : Conversation.t) :
  fits i = true ->
  conversations (set_conversations (insert i c) d) = insert i c (conversations d).
Proof. apply restrict_insert. Qed.

Lemma conversations_deleted (d : Db) (i : Z) :
  conversations (set_conversations (delete i) d) = delete i (conversations d).
Proof. apply restrict_delete. Qed.

Lemma conversations_mapped (d : Db) (g : Conversation.t -> Conversation.t) :
  conversations (set_conversations (fmap g) d) = g <$> conversations d.
Proof. apply restrict_fmap. Qed.

Lemma unique_key_fits (i : Z) : fits i = true -> unique_key (Some i) = Ret i.
Proof. intros H. unfold unique_key. by rewrite H. Qed.

Lemma filter_key_fits (i : Z) : fits i = true -> filter_key (Some i) = Ret (Some i).
Proof. intros H. unfold filter_key. by rewrite H. Qed.

(** One [update] on a row that exists, with tags that exist. *)
Lemma conversation_update_found (id : Z) (data : UpdateData.t) (inc : include)
    (db : Db) (c : Conversation.t) :
  conversations db !! id = Some c ->
  all_tags_exist db (default [] (UpdateData.set_tags data)) = true ->
  conversation_update (Some id) data inc db
  = (Ret (Some (view inc (set_conversations (insert id (apply_update data c)) db) id
                  (apply_update data c))),
     set_conversations (insert id (apply_update data c)) db,
     [ConversationUpdate (Some id)]).
Proof.
  intros Hc Hall. unfold conversation_update, updated_conversation.
  rewrite (unique_key_fits id (conversations_fit db id c Hc)). simpl.
  by rewrite Hc, Hall.
Qed.

(** ** Validation guards *)

Lemma truthy_id (z : Z) : truthy (Some z) = negb (z =? 0).
Proof. reflexivity. Qed.

Lemma id_guard_rejects (id : option Z) :
  invalid_id id -> negb (truthy id) || js_le0 id = true.
Proof.
  destruct id as [z|]; simpl; [|done]. intros Hz. rewrite truthy_id.
  apply orb_true_iff. right. by apply Z.leb_le.
Qed.

Lemma idUser_guard_rejects (id : option Z) :
  invalid_id id -> negb (truthy id) || js_lt0 id = true.
Proof.
  destruct id as [z|]; simpl; [|done]. intros Hz. rewrite truthy_id.
  destruct (Z.eqb_spec z 0) as [->|Hne]; [done|]. simpl. apply Z.ltb_lt. lia.
Qed.

Lemma id_guard_accepts (z : Z) :
  0 < z -> negb (truthy (Some z)) || js_le0 (Some z) = false.
Proof.
  intros Hz. rewrite truthy_id. simpl.
  destruct (Z.eqb_spec z 0); [lia|]. simpl. apply Z.leb_gt. lia.
Qed.

Lemma idUser_guard_accepts (z : Z) :
  0 < z -> negb (truthy (Some z)) || js_lt0 (Some z) = false.
Proof.
  intros Hz. rewrite truthy_id. simpl.
  destruct (Z.eqb_spec z 0); [lia|]. simpl. apply Z.ltb_ge. lia.
Qed.

(** ** [trim] *)

Lemma trim_start_blank (s : jsstring) :
  Forall (fun c => is_whitespace c = true) s -> trim_start s = [].
Proof.
  induction 1 as [|c s Hc _ IH]; [done|]. simpl. by rewrite Hc.
Qed.

Lemma trim_start_nil (s : jsstring) :
  trim_start s = [] -> Forall (fun c => is_whitespace c = true) s.
Proof.
  induction s as [|c s IH]; [constructor|]. simpl.
  destruct (is_whitespace c) eqn:Hc; [|done]. auto.
Qed.

Lemma trim_start_head (s : jsstring) (c : N) (rest : jsstring) :
  trim_start s = c :: rest -> is_whitespace c = false.
Proof.
  induction s as [|a s IH]; [done|]. simpl.
  destruct (is_whitespace a) eqn:Ha; [auto|]. congruence.
Qed.

(** [s.trim() === ''] exactly when [s] holds nothing but whitespace. *)
Lemma trim_nil_iff (s : jsstring) :
  trim s = [] <-> Forall (fun c => is_whitespace c = true) s.
Proof.
  unfold trim, trim_end. split.
  - intros H. apply (f_equal (@rev N)) in H. rewrite rev_involutive in H. simpl in H.
    apply trim_start_nil in H. apply Forall_rev in H. rewrite rev_involutive in H.
    destruct (trim_start s) as [|c rest] eqn:E; [by apply trim_start_nil|].
    apply trim_start_head in E. inversion H; congruence.
  - intros H. by rewrite (trim_start_blank s H).
Qed.

Lemma blank_title_true (t : jsstring) :
  t <> [] -> Forall (fun c => is_whitespace c = true) t -> blank_title (Some t) = true.
Proof.
  intros Hne Hws. unfold blank_title. apply andb_true_iff. split.
  - by destruct t.
  - apply bool_decide_eq_true. simpl. f_equal. by apply trim_nil_iff.
Qed.

(** ** C7: a whitespace-only title is refused before any query *)

(** C7. Whenever [updatedInfo.title] is a non-empty string made of whitespace
    only, [updateConversationById] answers 400 with no data, makes no call on
    the client (so no write), and leaves the database as it was. *)
Theorem updateConversationById_blank_title
    (id : option Z) (updatedInfo : UpdatedInfo.t) (includeRelatedEntities : bool)
    (db : Db) (t : jsstring) :
  UpdatedInfo.title updatedInfo = Some t ->
  t <> [] ->
  Forall (fun c => is_whitespace c = true) t ->
  exists r,
    updateConversationById id updatedInfo includeRelatedEntities db = (Ret r, db, [])
    /\ PrismaResponse.status r = 400%nat
    /\ PrismaResponse.data r = None.
Proof.
  intros Ht Hne Hws.
  unfold updateConversationById, catch_500, try_catch.
  destruct (negb (truthy id) || js_le0 id) eqn:Hid.
  - eexists. split; [reflexivity|]. done.
  - fold (blank_title (UpdatedInfo.title updatedInfo)).
    rewrite Ht, (blank_title_true t Hne Hws).
    eexists. split; [reflexivity|]. done.
Qed.


Lemma updateConversationById_blank_title_witness :
  Sample.blank <> []
  /\ Forall (fun c => is_whitespace c = true) Sample.blank
  /\ exists r,
       updateConversationById (Some 1)
         {| UpdatedInfo.tags := Some [8]; UpdatedInfo.title := Some Sample.blank |}
         true Sample.db
       = (Ret r, Sample.db, [])
       /\ PrismaResponse.status r = 400%nat
       /\ PrismaResponse.data r = None.
Proof.
  assert (Sample.blank <> []) as Hne by done.
  assert (Forall (fun c => is_whitespace c = true) Sample.blank) as Hws
    by (repeat constructor).
  split; [exact Hne|]. split; [exact Hws|].
  exact (updateConversationById_blank_title (Some 1)
           {| UpdatedInfo.tags := Some [8]; UpdatedInfo.title := Some Sample.blank |}
           true Sample.db Sample.blank eq_refl Hne Hws).
Defined.

(** ** C3: which functions refuse an invalid id with 400 *)

(** C3, as stated, fails on [deactivateAllConversationsByUserId]: for the id
    0 on the empty database the answer is 404, not 400. *)
Lemma invalid_id_not_always_400 :
  ~ (forall (idUser : option Z) (db : Db),
       invalid_id idUser ->
       exists r db' calls,
         deactivateAllConversationsByUserId idUser db = (Ret r, db', calls)
         /\ PrismaResponse.status r = 400%nat).
Proof.
  intros H. destruct (H (Some 0) Sample.empty) as (r & db' & calls & Hrun & Hst).
  - simpl. lia.
  - vm_compute in Hrun. injection Hrun as <- _ _. discriminate Hst.
Qed.

(** C3 (amended). For a missing, zero or negative id: the five functions that
    test their id answer 400 before any query; [createConversation] answers
    400 when [idUser] or [idModel] is missing or zero, and looks a negative
    [idUser] up, answering 404 when it fits the column and no user has it and
    500 when it does not fit; [deactivateAllConversationsByUserId] does not
    test its id: it answers 500 for a missing id, 404 for an id that fits the
    column and that no user has, and 500 for one that does not fit;
    [updateConversationParameters] answers 400 exactly when the validator
    refuses the payload, whatever the id. *)
Theorem invalid_id_responses (id : option Z) (db : Db) :
  invalid_id id ->
  getAllConversationsByUserId id db = (Ret (failure 400 "Invalid user ID"), db, [])
  /\ getConversationById id db = (Ret (failure 400 "Invalid conversation ID"), db, [])
  /\ (forall updatedInfo includeRelatedEntities,
        updateConversationById id updatedInfo includeRelatedEntities db
        = (Ret (failure 400 "Invalid conversation ID"), db, []))
  /\ deactivateConversationById id db
     = (Ret (failure 400 "Invalid conversation ID"), db, [])
  /\ deleteConversationById id db
     = (Ret (failure 400 "Invalid conversation ID"), db, [])
  /\ (forall JSON_parse JSON_stringify methods input,
        truthy id = false ->
        ConversationDataInput.idUser input = id
        \/ ConversationDataInput.idModel input = id ->
        createConversation JSON_parse JSON_stringify methods (Some input) db
        = (Ret (failure 400 "Invalid input for creating conversation"), db, []))
  /\ (forall JSON_parse JSON_stringify methods input z,
        id = Some z -> z < 0 ->
        ConversationDataInput.idUser input = id ->
        truthy (ConversationDataInput.idModel input) = true ->
        truthy (ConversationDataInput.title input) = true ->
        (fits z = true -> users db !! z = None ->
         createConversation JSON_parse JSON_stringify methods (Some input) db
         = (Ret (failure 404 "User not found"), db, [UserFindUnique id]))
        /\ (fits z = false ->
            createConversation JSON_parse JSON_stringify methods (Some input) db
            = (Ret (internal_error PrismaValueOutOfRange), db, [UserFindUnique id])))
  /\ (id = None ->
      deactivateAllConversationsByUserId id db
      = (Ret (internal_error PrismaValidationError), db, [UserFindUnique id]))
  /\ (forall z,
        id = Some z ->
        (fits z = true -> users db !! z = None ->
         deactivateAllConversationsByUserId id db
         = (Ret (failure 404 "User ID does not exist"), db, [UserFindUnique id]))
        /\ (fits z = false ->
            deactivateAllConversationsByUserId id db
            = (Ret (internal_error PrismaValueOutOfRange), db, [UserFindUnique id])))
  /\ (forall areValidModelParameters parameters r db' calls,
        updateConversationParameters areValidModelParameters id parameters db
        = (Ret r, db', calls) ->
        PrismaResponse.status r = 400%nat
        <-> areValidModelParameters parameters = false).
Proof.
  intros Hid.
  pose proof (id_guard_rejects id Hid) as Hguard.
  pose proof (idUser_guard_rejects id Hid) as HguardU.
  split; [|split; [|split; [|split; [|split; [|split; [|split; [|split; [|split]]]]]]]].
  - unfold getAllConversationsByUserId, catch_500, try_catch. by rewrite HguardU.
  - unfold getConversationById, catch_500, try_catch. by rewrite Hguard.
  - intros. unfold updateConversationById, catch_500, try_catch. by rewrite Hguard.
  - unfold deactivateConversationById, catch_500, try_catch. by rewrite Hguard.
  - unfold deleteConversationById, catch_500, try_catch. by rewrite Hguard.
  - intros JSON_parse JSON_stringify methods input Hfalsy Hfield.
    unfold createConversation, catch_500, try_catch. simpl.
    destruct Hfield as [-> | ->]; rewrite Hfalsy; simpl.
    + done.
    + by rewrite orb_true_r.
  - intros JSON_parse JSON_stringify methods input z -> Hneg Hu Hm Ht.
    unfold createConversation, catch_500, try_catch. simpl.
    rewrite Hu, Hm, Ht, truthy_id.
    destruct (Z.eqb_spec z 0); [lia|]. simpl.
    unfold user_findUnique, query, mbind, M_bind, unique_key. simpl.
    split; [intros -> Hz; simpl; by rewrite Hz|by intros ->].
  - by intros ->.
  - intros z ->.
    unfold deactivateAllConversationsByUserId, catch_500, try_catch,
      user_findUnique, query, mbind, M_bind, unique_key. simpl.
    split; [intros -> Hz; simpl; by rewrite Hz|by intros ->].
  - intros valid parameters r db' calls Hrun.
    unfold updateConversationParameters in Hrun.
    destruct (valid parameters) eqn:Hv; simpl in Hrun.
    + unfold catch_500, try_catch, mbind, M_bind, conversation_update in Hrun.
      destruct (updated_conversation db id _) as [[i c]|e]; simpl in Hrun;
        injection Hrun as <- _ _; by split.
    + by injection Hrun as <- _ _.
Qed.

Lemma invalid_id_responses_witness :
  invalid_id (Some 0)
  /\ getConversationById (Some 0) Sample.db
     = (Ret (failure 400 "Invalid conversation ID"), Sample.db, [])
  /\ deleteConversationById (Some 0) Sample.db
     = (Ret (failure 400 "Invalid conversation ID"), Sample.db, []).
Proof.
  assert (invalid_id (Some 0)) as Hid by (simpl; lia).
  split; [exact Hid|].
  pose proof (invalid_id_responses (Some 0) Sample.db Hid) as H.
  split; [apply H | apply H].
Defined.

(** [updateConversationParameters] sends the update whatever the id: with a
    payload the validator accepts and the id 0, the answer is 500. *)
Example updateConversationParameters_id_0 :
  updateConversationParameters (fun _ => true) (Some 0) Sample.half Sample.db
  = (Ret (internal_error PrismaRecordNotFound), Sample.db, [ConversationUpdate (Some 0)]).
Proof. reflexivity. Qed.

(** ** C2: a valid id with no row behind it *)

(** [update] and [delete] reject when no row matches, so the test of their
    result against [null] never fires: none of the three functions can answer
    404. *)
Lemma not_found_branch_unreachable (id : option Z) (db : Db) :
  (forall updatedInfo includeRelatedEntities r db' calls,
     updateConversationById id updatedInfo includeRelatedEntities db = (Ret r, db', calls) ->
     PrismaResponse.status r <> 404%nat)
  /\ (forall r db' calls,
        deactivateConversationById id db = (Ret r, db', calls) ->
        PrismaResponse.status r <> 404%nat)
  /\ (forall r db' calls,
        deleteConversationById id db = (Ret r, db', calls) ->
        PrismaResponse.status r <> 404%nat).
Proof.
  split; [|split].
  - intros info inc r db' calls.
    unfold updateConversationById, catch_500, try_catch.
    destruct (negb (truthy id) || js_le0 id); [by intros [= <- _ _]|].
    destruct (truthy _ && _); [by intros [= <- _ _]|].
    unfold mbind, M_bind, conversation_update.
    destruct (updated_conversation db id _) as [[i c]|e]; simpl;
      by intros [= <- _ _].
  - intros r db' calls.
    unfold deactivateConversationById, catch_500, try_catch.
    destruct (negb (truthy id) || js_le0 id); [by intros [= <- _ _]|].
    unfold mbind, M_bind, conversation_update.
    destruct (updated_conversation db id _) as [[i c]|e]; simpl;
      by intros [= <- _ _].
  - intros r db' calls.
    unfold deleteConversationById, catch_500, try_catch.
    destruct (negb (truthy id) || js_le0 id); [by intros [= <- _ _]|].
    unfold mbind, M_bind, message_deleteMany, conversation_delete, query,
      filter_key, unique_key. simpl.
    destruct id as [i|]; simpl; [|by intros [= <- _ _]].
    destruct (fits i); simpl; [|by intros [= <- _ _]].
    destruct (conversations db !! i); simpl; by intros [= <- _ _].
Qed.

Lemma without_messages_unchanged (id : Z) (db : Db) :
  (forall k m, messages db !! k = Some m -> Message.idConversation m <> id) ->
  without_messages id db = db.
Proof.
  intros Hnone. apply Db_eq; try done. simpl.
  apply map_filter_id. intros k m Hk. simpl. apply Z.eqb_neq. by apply (Hnone k).
Qed.

(** For every valid id that fits the column and has no conversation behind
    it the answer is 500, and nothing changes in the database (no message
    refers to a conversation that does not exist). *)
Lemma missing_row_answers_500 (id : Z) (db : Db) :
  0 < id ->
  fits id = true ->
  conversations db !! id = None ->
  (forall updatedInfo includeRelatedEntities,
     blank_title (UpdatedInfo.title updatedInfo) = false ->
     updateConversationById (Some id) updatedInfo includeRelatedEntities db
     = (Ret (internal_error PrismaRecordNotFound), db, [ConversationUpdate (Some id)]))
  /\ deactivateConversationById (Some id) db
     = (Ret (internal_error PrismaRecordNotFound), db, [ConversationUpdate (Some id)])
  /\ ((forall k m, messages db !! k = Some m -> Message.idConversation m <> id) ->
      deleteConversationById (Some id) db
      = (Ret (internal_error PrismaRecordNotFound), db,
         [MessageDeleteMany (Some id); ConversationDelete (Some id)])).
Proof.
  intros Hid Hfit Hnone. split; [|split].
  - intros info inc Hblank.
    unfold updateConversationById, catch_500, try_catch.
    rewrite (id_guard_accepts id Hid).
    fold (blank_title (UpdatedInfo.title info)). rewrite Hblank.
    unfold mbind, M_bind, conversation_update, updated_conversation.
    rewrite (unique_key_fits id Hfit). simpl. by rewrite Hnone.
  - unfold deactivateConversationById, catch_500, try_catch.
    rewrite (id_guard_accepts id Hid).
    unfold mbind, M_bind, conversation_update, updated_conversation.
    rewrite (unique_key_fits id Hfit). simpl. by rewrite Hnone.
  - intros Hfk.
    unfold deleteConversationById, catch_500, try_catch.
    rewrite (id_guard_accepts id Hid).
    unfold mbind, M_bind, message_deleteMany, conversation_delete, query.
    rewrite (filter_key_fits id Hfit), (unique_key_fits id Hfit). simpl.
    rewrite Hnone. simpl.
    change (set_messages _ db) with (without_messages id db).
    by rewrite (without_messages_unchanged id db Hfk).
Qed.

(** C2, at a failing input: the id 5 names no conversation of the sample
    database, and each of the three functions answers 500 with the client's
    "record not found" error, the database unchanged. *)
Lemma missing_conversation_is_500 :
  updateConversationById (Some 5)
    {| UpdatedInfo.tags := None; UpdatedInfo.title := None |} false Sample.db
  = (Ret (internal_error PrismaRecordNotFound), Sample.db, [ConversationUpdate (Some 5)])
  /\ deactivateConversationById (Some 5) Sample.db
     = (Ret (internal_error PrismaRecordNotFound), Sample.db, [ConversationUpdate (Some 5)])
  /\ deleteConversationById (Some 5) Sample.db
     = (Ret (internal_error PrismaRecordNotFound), Sample.db,
        [MessageDeleteMany (Some 5); ConversationDelete (Some 5)]).
Proof. repeat split; vm_compute; reflexivity. Qed.

(** ** Reading conversations *)

Lemma view_id (inc : include) (d : Db) (id : Z) (c : Conversation.t) :
  View.id (view inc d id c) = id.
Proof. by destruct inc. Qed.

Lemma view_row (inc : include) (d : Db) (id : Z) (c : Conversation.t) :
  inc <> IncludeNothing -> View.row (view inc d id c) = c.
Proof. by destruct inc. Qed.

(** What [getAllConversationsByUserId] lists: exactly the active rows of the
    user. *)
Lemma getAllConversationsByUserId_data
    (idUser : option Z) (db db' : Db) (r : PrismaResponse.t (list View.t))
    (calls : list call) (l : list View.t) :
  getAllConversationsByUserId idUser db = (Ret r, db', calls) ->
  PrismaResponse.data r = Some l ->
  forall v,
    v ∈ l <->
    exists k c,
      conversations db !! k = Some c
      /\ owned_by idUser c = true
      /\ Conversation.active c = true
      /\ v = view IncludeSummary db k c.
Proof.
  unfold getAllConversationsByUserId, catch_500, try_catch.
  destruct (negb (truthy idUser) || js_lt0 idUser); [by intros [= <- _ _]|].
  unfold mbind, M_bind, user_findUnique, conversation_findMany_active, query,
    unique_key, filter_key.
  destruct idUser as [u|]; simpl; [|by intros [= <- _ _]].
  destruct (fits u); simpl; [|by intros [= <- _ _]].
  destruct (users db !! u) as [usr|]; simpl; [|by intros [= <- _ _]].
  case_bool_decide as Hlen; simpl; [by intros [= <- _ _]|].
  intros [= <- _ _] [= <-] v. rewrite list_elem_of_fmap. split.
  - intros ([k c] & -> & Hin). apply elem_of_map_to_list in Hin.
    apply map_lookup_filter_Some in Hin as [Hk Hp]. simpl in Hp.
    apply andb_true_iff in Hp as [Ho Ha]. by exists k, c.
  - intros (k & c & Hk & Ho & Ha & ->). exists (k, c). split; [done|].
    apply elem_of_map_to_list, map_lookup_filter_Some. split; [done|].
    simpl. by rewrite Ho, Ha.
Qed.

Lemma getConversationById_found (id : Z) (c : Conversation.t) (db : Db) :
  0 < id ->
  conversations db !! id = Some c ->
  getConversationById (Some id) db
  = (Ret (success 200 (Some (view IncludeAll db id c)) None), db,
     [ConversationFindUnique (Some id)]).
Proof.
  intros Hid Hc. unfold getConversationById, catch_500, try_catch.
  rewrite (id_guard_accepts id Hid).
  unfold mbind, M_bind, conversation_findUnique, query.
  rewrite (unique_key_fits id (conversations_fit db id c Hc)). simpl. by rewrite Hc.
Qed.

Lemma getConversationById_missing (id : Z) (db : Db) :
  0 < id ->
  fits id = true ->
  conversations db !! id = None ->
  getConversationById (Some id) db
  = (Ret (failure 404 "Conversation not found"), db,
     [ConversationFindUnique (Some id)]).
Proof.
  intros Hid Hfit Hc. unfold getConversationById, catch_500, try_catch.
  rewrite (id_guard_accepts id Hid).
  unfold mbind, M_bind, conversation_findUnique, query.
  rewrite (unique_key_fits id Hfit). simpl. by rewrite Hc.
Qed.

(** An id that does not fit the column is refused by the client. *)
Lemma getConversationById_out_of_range (id : Z) (db : Db) :
  0 < id ->
  fits id = false ->
  getConversationById (Some id) db
  = (Ret (internal_error PrismaValueOutOfRange), db,
     [ConversationFindUnique (Some id)]).
Proof.
  intros Hid Hfit. unfold getConversationById, catch_500, try_catch.
  rewrite (id_guard_accepts id Hid).
  unfold mbind, M_bind, conversation_findUnique, query, unique_key. by rewrite Hfit.
Qed.

(** The first ids beyond the column are refused, where the last ones
    within it, which no row has, are looked up. *)
Example ids_beyond_the_column :
  getConversationById (Some 2147483648) Sample.db
  = (Ret (internal_error PrismaValueOutOfRange), Sample.db,
     [ConversationFindUnique (Some 2147483648)])
  /\ getConversationById (Some 2147483647) Sample.db
     = (Ret (failure 404 "Conversation not found"), Sample.db,
        [ConversationFindUnique (Some 2147483647)])
  /\ deactivateAllConversationsByUserId (Some (-2147483649)) Sample.db
     = (Ret (internal_error PrismaValueOutOfRange), Sample.db,
        [UserFindUnique (Some (-2147483649))])
  /\ deactivateAllConversationsByUserId (Some (-2147483648)) Sample.db
     = (Ret (failure 404 "User ID does not exist"), Sample.db,
        [UserFindUnique (Some (-2147483648))]).
Proof. repeat split; vm_compute; reflexivity. Qed.

(** ** C4: deactivation is a soft delete *)

(** C4. For an existing conversation, [deactivateConversationById] answers 200
    after one update that sets [active] to false and leaves the row's other
    columns, its tags, every other row and every message as they were; the
    conversation is then still answered by [getConversationById], with its
    messages, and no list [getAllConversationsByUserId] answers holds it. *)
Theorem deactivateConversationById_soft_delete
    (id : Z) (c : Conversation.t) (db : Db) :
  0 < id ->
  conversations db !! id = Some c ->
  exists c' db',
    deactivateConversationById (Some id) db
    = (Ret (success 200 None (Some "Conversation marked as inactive"%string)), db',
       [ConversationUpdate (Some id)])
    /\ db' = set_conversations (insert id c') db
    /\ Conversation.active c' = false
    /\ Conversation.title c' = Conversation.title c
    /\ Conversation.parameters c' = Conversation.parameters c
    /\ Conversation.tags c' = Conversation.tags c
    /\ Conversation.idUser c' = Conversation.idUser c
    /\ Conversation.idModel c' = Conversation.idModel c
    /\ Conversation.useGlobalParameters c' = Conversation.useGlobalParameters c
    /\ messages db' = messages db
    /\ messages_of db' id = messages_of db id
    /\ getConversationById (Some id) db'
       = (Ret (success 200 (Some (view IncludeAll db' id c')) None), db',
          [ConversationFindUnique (Some id)])
    /\ (forall idUser r db'' calls l v,
          getAllConversationsByUserId idUser db' = (Ret r, db'', calls) ->
          PrismaResponse.data r = Some l ->
          v ∈ l -> View.id v <> id).
Proof.
  intros Hid Hc.
  exists (apply_update deactivate c), (set_conversations (insert id (apply_update deactivate c)) db).
  split.
  { unfold deactivateConversationById, catch_500, try_catch.
    rewrite (id_guard_accepts id Hid).
    unfold mbind, M_bind. by rewrite (conversation_update_found id _ _ db c Hc). }
  pose proof (conversations_fit db id c Hc) as Hfit.
  repeat split; try done.
  - apply getConversationById_found; [done|].
    rewrite conversations_inserted by done. apply lookup_insert_eq.
  - intros idUser r db'' calls l v Hrun Hdata Hv Heq.
    apply (getAllConversationsByUserId_data _ _ _ _ _ _ Hrun Hdata) in Hv
      as (k & x & Hk & _ & Hactive & ->).
    rewrite view_id in Heq. subst k. rewrite conversations_inserted in Hk by done.
    rewrite lookup_insert_eq in Hk. by injection Hk as <-.
Qed.

Lemma deactivateConversationById_soft_delete_witness :
  0 < 1
  /\ conversations Sample.db !! 1 = Some Sample.chat
  /\ exists c' db',
       deactivateConversationById (Some 1) Sample.db
       = (Ret (success 200 None (Some "Conversation marked as inactive"%string)), db',
          [ConversationUpdate (Some 1)])
       /\ db' = set_conversations (insert 1 c') Sample.db
       /\ Conversation.active c' = false
       /\ Conversation.title c' = Conversation.title Sample.chat.
Proof.
  assert (0 < 1) as Hid by lia.
  assert (conversations Sample.db !! 1 = Some Sample.chat) as Hc by reflexivity.
  split; [exact Hid|]. split; [exact Hc|].
  destruct (deactivateConversationById_soft_delete 1 Sample.chat Sample.db Hid Hc)
    as (c' & db' & H1 & H2 & H3 & H4 & _).
  exists c', db'. auto.
Defined.

(** ** C5: deletion removes the messages, then the row *)

Lemma without_messages_none (id : Z) (db : Db) (k : Z) (m : Message.t) :
  messages (without_messages id db) !! k = Some m -> Message.idConversation m <> id.
Proof.
  simpl. intros [_ H]%map_lookup_filter_Some. simpl in H.
  by apply Z.eqb_neq.
Qed.

Lemma without_messages_other (id : Z) (db : Db) (k : Z) (m : Message.t) :
  messages db !! k = Some m ->
  Message.idConversation m <> id ->
  messages (without_messages id db) !! k = Some m.
Proof.
  intros Hk Hne. simpl. apply map_lookup_filter_Some. split; [done|].
  simpl. by apply Z.eqb_neq.
Qed.

(** C5. For an existing conversation, [deleteConversationById] answers 200
    after exactly two writes, in this order: the deletion of every message of
    the conversation, made while the conversation row is still there, then
    the deletion of the row. Afterwards no message of the conversation is
    left, the messages of other conversations are all kept, and
    [getConversationById] answers 404 for the id. *)
Theorem deleteConversationById_messages_first
    (id : Z) (c : Conversation.t) (db : Db) :
  0 < id ->
  conversations db !! id = Some c ->
  exists db',
    deleteConversationById (Some id) db
    = (Ret (success 200 None
              (Some "Conversation and associated messages successfully deleted"%string)),
       db', [MessageDeleteMany (Some id); ConversationDelete (Some id)])
    /\ (exists n, message_deleteMany (Some id) db
                  = (Ret n, without_messages id db, [MessageDeleteMany (Some id)])
                  /\ conversations (without_messages id db) !! id = Some c)
    /\ conversation_delete (Some id) (without_messages id db)
       = (Ret (Some c), db', [ConversationDelete (Some id)])
    /\ conversations db' = delete id (conversations db)
    /\ messages db' = messages (without_messages id db)
    /\ (forall k m, messages db' !! k = Some m -> Message.idConversation m <> id)
    /\ (forall k m, messages db !! k = Some m -> Message.idConversation m <> id ->
                    messages db' !! k = Some m)
    /\ getConversationById (Some id) db'
       = (Ret (failure 404 "Conversation not found"), db',
          [ConversationFindUnique (Some id)]).
Proof.
  intros Hid Hc.
  pose proof (conversations_fit db id c Hc) as Hfit.
  exists (set_conversations (delete id) (without_messages id db)).
  split.
  { unfold deleteConversationById, catch_500, try_catch.
    rewrite (id_guard_accepts id Hid).
    unfold mbind, M_bind, message_deleteMany, conversation_delete, query.
    rewrite (filter_key_fits id Hfit), (unique_key_fits id Hfit). simpl.
    by rewrite Hc. }
  split.
  { eexists. split; [|exact Hc].
    unfold message_deleteMany, query. by rewrite (filter_key_fits id Hfit). }
  split.
  { unfold conversation_delete, query. rewrite (unique_key_fits id Hfit). simpl.
    by rewrite Hc. }
  split; [apply (conversations_deleted (without_messages id db))|].
  repeat split.
  - intros k m. apply without_messages_none.
  - intros k m. apply without_messages_other.
  - apply getConversationById_missing; [done|done|].
    rewrite conversations_deleted. apply lookup_delete_eq.
Qed.

Lemma deleteConversationById_messages_first_witness :
  0 < 1
  /\ conversations Sample.db !! 1 = Some Sample.chat
  /\ exists db',
       deleteConversationById (Some 1) Sample.db
       = (Ret (success 200 None
                 (Some "Conversation and associated messages successfully deleted"%string)),
          db', [MessageDeleteMany (Some 1); ConversationDelete (Some 1)])
       /\ getConversationById (Some 1) db'
          = (Ret (failure 404 "Conversation not found"), db',
             [ConversationFindUnique (Some 1)]).
Proof.
  assert (0 < 1) as Hid by lia.
  assert (conversations Sample.db !! 1 = Some Sample.chat) as Hc by reflexivity.
  split; [exact Hid|]. split; [exact Hc|].
  destruct (deleteConversationById_messages_first 1 Sample.chat Sample.db Hid Hc)
    as (db' & H1 & _ & _ & _ & _ & _ & _ & H2).
  exists db'. auto.
Defined.

(** ** C10: what the bulk deactivation counts *)

Lemma owned_by_filter (idUser : Z) (db : Db) :
  filter (fun kv => owned_by (Some idUser) kv.2 = true) (conversations db)
  = owned idUser db.
Proof.
  apply map_filter_ext. intros k c _. simpl. apply Z.eqb_eq.
Qed.

Lemma owned_empty_iff (idUser : Z) (db : Db) :
  size (owned idUser db) = 0%nat
  <-> forall k c, conversations db !! k = Some c -> Conversation.idUser c <> idUser.
Proof.
  rewrite map_size_empty_iff, map_empty. unfold owned. split.
  - intros H k c Hk Hu. specialize (H k).
    apply map_lookup_filter_None in H as [H|H]; [congruence|]. by apply (H c).
  - intros H k. apply map_lookup_filter_None. right. intros c Hk. simpl. by apply (H k).
Qed.

(** C10. For an existing user the bulk update matches every conversation of
    the user, whatever its [active] value: the answer is 200 with the number
    of conversations the user owns, all of them then inactive and every other
    row untouched, unless the user owns none, which is exactly when the answer
    is 404 (the database then unchanged). *)
Theorem deactivateAllConversationsByUserId_counts_all
    (idUser : Z) (u : User.t) (db : Db) :
  users db !! idUser = Some u ->
  exists r db',
    deactivateAllConversationsByUserId (Some idUser) db
    = (Ret r, db',
       [UserFindUnique (Some idUser); ConversationUpdateMany (Some idUser)])
    /\ (PrismaResponse.status r = 404%nat
        <-> forall k c, conversations db !! k = Some c -> Conversation.idUser c <> idUser)
    /\ (size (owned idUser db) <> 0%nat ->
        r = success 200 (Some (size (owned idUser db)))
              (Some "Conversations marked as inactive"%string))
    /\ (size (owned idUser db) = 0%nat ->
        r = failure 404 "No conversations found for this user" /\ db' = db)
    /\ (forall k c, conversations db !! k = Some c ->
          Conversation.idUser c = idUser ->
          exists c', conversations db' !! k = Some c'
                     /\ Conversation.active c' = false
                     /\ Conversation.title c' = Conversation.title c
                     /\ Conversation.parameters c' = Conversation.parameters c
                     /\ Conversation.tags c' = Conversation.tags c)
    /\ (forall k c, conversations db !! k = Some c ->
          Conversation.idUser c <> idUser ->
          conversations db' !! k = Some c)
    /\ messages db' = messages db.
Proof.
  intros Hu.
  set (f := fun c => if owned_by (Some idUser) c then apply_update deactivate c else c).
  assert (deactivateAllConversationsByUserId (Some idUser) db
          = (Ret (if bool_decide (size (owned idUser db) = 0%nat)
                  then failure 404 "No conversations found for this user"
                  else success 200 (Some (size (owned idUser db)))
                         (Some "Conversations marked as inactive"%string)),
             set_conversations (fmap f) db,
             [UserFindUnique (Some idUser); ConversationUpdateMany (Some idUser)]))
    as Hrun.
  { unfold deactivateAllConversationsByUserId, catch_500, try_catch,
      mbind, M_bind, user_findUnique, conversation_updateMany, query.
    rewrite (unique_key_fits idUser (users_fit db idUser u Hu)),
      (filter_key_fits idUser (users_fit db idUser u Hu)). simpl.
    rewrite Hu. simpl. rewrite (owned_by_filter idUser db).
    by case_bool_decide. }
  do 2 eexists. split; [exact Hrun|].
  split; [|split; [|split; [|split; [|split]]]].
  - rewrite <- owned_empty_iff. by case_bool_decide.
  - intros Hn. by rewrite bool_decide_false.
  - intros Hn. rewrite bool_decide_true by done. split; [done|].
    pose proof (proj1 (owned_empty_iff idUser db) Hn) as Hnone. clear Hrun Hn.
    apply Db_eq; try done. rewrite conversations_mapped.
    rewrite <- (map_fmap_id (conversations db)) at 2. apply map_fmap_ext.
    intros k c Hk. unfold f, owned_by.
    specialize (Hnone k c Hk). by apply Z.eqb_neq in Hnone as ->.
  - intros k c Hk Hc. exists (apply_update deactivate c). split; [|done].
    rewrite conversations_mapped, lookup_fmap, Hk. simpl. unfold f, owned_by.
    by apply Z.eqb_eq in Hc as ->.
  - intros k c Hk Hc. rewrite conversations_mapped, lookup_fmap, Hk. simpl.
    unfold f, owned_by. by apply Z.eqb_neq in Hc as ->.
  - done.
Qed.

Lemma deactivateAllConversationsByUserId_counts_all_witness :
  users Sample.db !! 1 = Some Sample.alice
  /\ exists r db',
       deactivateAllConversationsByUserId (Some 1) Sample.db
       = (Ret r, db',
          [UserFindUnique (Some 1); ConversationUpdateMany (Some 1)])
       /\ (size (owned 1 Sample.db) <> 0%nat ->
           r = success 200 (Some (size (owned 1 Sample.db)))
                 (Some "Conversations marked as inactive"%string)).
Proof.
  assert (users Sample.db !! 1 = Some Sample.alice) as Hu by reflexivity.
  split; [exact Hu|].
  destruct (deactivateAllConversationsByUserId_counts_all 1 Sample.alice Sample.db Hu)
    as (r & db' & H1 & _ & H2 & _).
  exists r, db'. auto.
Defined.

(** On the sample database the user owns two conversations, one of them
    already inactive, and the count is 2. *)
Example deactivateAll_counts_inactive_rows :
  exists db',
    deactivateAllConversationsByUserId (Some 1) Sample.db
    = (Ret (success 200 (Some 2%nat) (Some "Conversations marked as inactive"%string)),
       db', [UserFindUnique (Some 1); ConversationUpdateMany (Some 1)]).
Proof. eexists. vm_compute. reflexivity. Qed.

(** ** C6: a supplied tag list replaces the tags *)

Lemma all_tags_exist_iff (d : Db) (ids : list Z) :
  all_tags_exist d ids = true <-> forall i, i ∈ ids -> is_Some (tag_rows d !! i).
Proof.
  unfold all_tags_exist. rewrite forallb_forall. split.
  - intros H i Hi. apply list_elem_of_In in Hi. apply H in Hi.
    by apply bool_decide_eq_true in Hi.
  - intros H i Hi. apply bool_decide_eq_true, H. by apply list_elem_of_In.
Qed.

(** C6. For an existing conversation and a supplied list of tags (rows of
    the tag table), whenever [updateConversationById] answers 200 the
    conversation's tags are exactly the supplied ones: a tag is attached
    afterwards if and only if it is in the list, whatever was attached
    before. The call does answer 200 when the title passes its test;
    otherwise nothing is written. *)
Theorem updateConversationById_replaces_tags
    (id : Z) (c : Conversation.t) (db : Db) (updatedInfo : UpdatedInfo.t)
    (includeRelatedEntities : bool) (ids : list Z) :
  0 < id ->
  conversations db !! id = Some c ->
  UpdatedInfo.tags updatedInfo = Some ids ->
  (forall t, t ∈ ids -> is_Some (tag_rows db !! t)) ->
  exists r db' calls,
    updateConversationById (Some id) updatedInfo includeRelatedEntities db
    = (Ret r, db', calls)
    /\ (PrismaResponse.status r = 200%nat ->
        exists c' v,
          conversations db' !! id = Some c'
          /\ PrismaResponse.data r = Some v
          /\ View.id v = id
          /\ View.row v = c'
          /\ Conversation.tags c' = list_to_set ids
          /\ (forall t, t ∈ Conversation.tags c' <-> t ∈ ids))
    /\ (blank_title (UpdatedInfo.title updatedInfo) = false ->
        PrismaResponse.status r = 200%nat)
    /\ (PrismaResponse.status r <> 200%nat -> db' = db /\ calls = []).
Proof.
  intros Hid Hc Htags Hex. apply all_tags_exist_iff in Hex.
  unfold updateConversationById, catch_500, try_catch.
  rewrite (id_guard_accepts id Hid).
  fold (blank_title (UpdatedInfo.title updatedInfo)).
  destruct (blank_title (UpdatedInfo.title updatedInfo)) eqn:Hblank.
  { do 3 eexists. split; [reflexivity|]. by repeat split. }
  unfold mbind, M_bind.
  rewrite (conversation_update_found id _ _ db c Hc) by (simpl; by rewrite Htags).
  simpl. do 3 eexists. split; [reflexivity|]. repeat split; try done.
  intros _. do 2 eexists. split.
  { rewrite conversations_inserted by (by apply (conversations_fit db id c)).
    apply lookup_insert_eq. }
  split; [reflexivity|].
  rewrite view_id, view_row by (by destruct includeRelatedEntities).
  simpl. rewrite Htags.
  repeat split; try done; by rewrite elem_of_list_to_set.
Qed.

Lemma updateConversationById_replaces_tags_witness :
  0 < 1
  /\ conversations Sample.db !! 1 = Some Sample.chat
  /\ exists r db' calls,
       updateConversationById (Some 1)
         {| UpdatedInfo.tags := Some [8]; UpdatedInfo.title := None |}
         false Sample.db
       = (Ret r, db', calls)
       /\ (PrismaResponse.status r = 200%nat ->
           exists c' v,
             conversations db' !! 1 = Some c'
             /\ PrismaResponse.data r = Some v
             /\ View.id v = 1
             /\ View.row v = c'
             /\ Conversation.tags c' = list_to_set [8]
             /\ (forall t, t ∈ Conversation.tags c' <-> t ∈ [8])).
Proof.
  assert (0 < 1) as Hid by lia.
  assert (conversations Sample.db !! 1 = Some Sample.chat) as Hc by reflexivity.
  split; [exact Hid|]. split; [exact Hc|].
  assert (forall t, t ∈ [8] -> is_Some (tag_rows Sample.db !! t)) as Hex.
  { intros t Ht. apply list_elem_of_singleton in Ht as ->. by eexists. }
  destruct (updateConversationById_replaces_tags 1 Sample.chat Sample.db
              {| UpdatedInfo.tags := Some [8]; UpdatedInfo.title := None |}
              false [8] Hid Hc eq_refl Hex)
    as (r & db' & calls & H1 & H2 & _).
  exists r, db', calls. auto.
Defined.

(** On the sample database the conversation held tag 7; after an update with
    the list [8] it holds tag 8 alone. *)
Example update_drops_old_tags :
  exists r db' calls c',
    updateConversationById (Some 1)
      {| UpdatedInfo.tags := Some [8]; UpdatedInfo.title := None |} false Sample.db
    = (Ret r, db', calls)
    /\ PrismaResponse.status r = 200%nat
    /\ conversations db' !! 1 = Some c'
    /\ (7 ∈ Conversation.tags Sample.chat)
    /\ (7 ∉ Conversation.tags c')
    /\ (8 ∈ Conversation.tags c').
Proof.
  do 4 eexists. split; [reflexivity|]. split; [reflexivity|].
  split; [reflexivity|]. simpl.
  split; [by apply elem_of_singleton|].
  rewrite !elem_of_union, !elem_of_singleton.
  split; [intros [?|?%elem_of_empty]; done | by left].
Qed.

(** ** C1, C8: what [createConversation] stores *)

Section CreateConversation.

Variable JSON_parse : jsstring -> option json.
Variable JSON_stringify : json -> jsstring.
Variable methods : prototype -> jsstring -> bool.

(** Every answer 201 comes from one insert, after both lookups succeeded. *)
Lemma createConversation_201
    (input : option ConversationDataInput.t) (db db' : Db)
    (r : PrismaResponse.t View.t) (calls : list call) :
  createConversation JSON_parse JSON_stringify methods input db = (Ret r, db', calls) ->
  PrismaResponse.status r = 201%nat ->
  exists i u m t user model g modelParameters c,
    input = Some i
    /\ ConversationDataInput.idUser i = Some u
    /\ ConversationDataInput.idModel i = Some m
    /\ ConversationDataInput.title i = Some t
    /\ users db !! u = Some user
    /\ models db !! m = Some model
    /\ parsed_globals JSON_parse user = Some g
    /\ get_property methods g (Model.name model) = Ret modelParameters
    /\ c = {| Conversation.idUser := u; Conversation.idModel := m;
              Conversation.title := t;
              Conversation.parameters :=
                stored_parameters JSON_stringify (ConversationDataInput.useGlobalParameters i)
                  modelParameters;
              Conversation.active := true;
              Conversation.useGlobalParameters :=
                ConversationDataInput.useGlobalParameters i;
              Conversation.tags :=
                list_to_set (default [] (ConversationDataInput.tags i)) |}
    /\ conversations db !! next_conversation_id db = None
    /\ fits (next_conversation_id db) = true
    /\ db' = bump_conversation_id
               (set_conversations (insert (next_conversation_id db) c) db)
    /\ r = success 201 (Some (view IncludeAll db' (next_conversation_id db) c)) None.
Proof.
  unfold createConversation, catch_500, try_catch.
  destruct input as [i|]; simpl; [|by intros [= <- _ _]].
  destruct (negb (truthy (ConversationDataInput.idUser i)) || _ || _);
    [by intros [= <- _ _]|].
  unfold mbind, M_bind, user_findUnique, model_findUnique, query, unique_key.
  destruct (ConversationDataInput.idUser i) as [u|] eqn:Hu; simpl;
    [|by intros [= <- _ _]].
  destruct (fits u) eqn:Hfu; simpl; [|by intros [= <- _ _]].
  destruct (users db !! u) as [user|] eqn:Huser; simpl; [|by intros [= <- _ _]].
  destruct (ConversationDataInput.idModel i) as [m|] eqn:Hm; simpl;
    [|by intros [= <- _ _]].
  destruct (fits m) eqn:Hfm; simpl; [|by intros [= <- _ _]].
  destruct (models db !! m) as [model|] eqn:Hmodel; simpl; [|by intros [= <- _ _]].
  assert ((if truthy (User.globalParameters user)
           then parse JSON_parse (js_String (User.globalParameters user))
           else mret empty_object) db
          = match parsed_globals JSON_parse user with
            | Some g => (Ret g, db, [])
            | None => (Throw SyntaxError, db, [])
            end) as ->.
  { unfold parsed_globals, parse.
    destruct (truthy (User.globalParameters user)); [|done].
    by destruct (JSON_parse _). }
  destruct (parsed_globals JSON_parse user) as [g|] eqn:Hg; simpl; [|by intros [= <- _ _]].
  unfold lift.
  destruct (get_property methods g (Model.name model)) as [mp|e] eqn:Hmp; simpl;
    [|by intros [= <- _ _]].
  unfold conversation_create, new_conversation, insert_check. simpl.
  rewrite ?Hu, ?Hm.
  destruct (ConversationDataInput.title i) as [t|] eqn:Ht; simpl;
    [|by intros [= <- _ _]].
  rewrite Hfu, Hfm. simpl.
  destruct (fits (next_conversation_id db)) eqn:Hfn; simpl; [|by intros [= <- _ _]].
  case_bool_decide as Hfresh; simpl; [by intros [= <- _ _]|].
  destruct (all_tags_exist db _); simpl; [|by intros [= <- _ _]].
  intros [= <- <- _] _.
  exists i, u, m, t, user, model, g, mp. eexists.
  repeat split; try done.
  by apply eq_None_not_Some.
Qed.

Lemma catch_500_returns {T} (body : M (PrismaResponse.t T)) (d : Db) :
  exists r d' l, catch_500 body d = (Ret r, d', l).
Proof.
  unfold catch_500, try_catch. destruct (body d) as [[[r|e] d'] l]; simpl; eauto.
Qed.




Lemma createConversation_returns (input : option ConversationDataInput.t) (db : Db) :
  exists r db' calls,
    createConversation JSON_parse JSON_stringify methods input db = (Ret r, db', calls).
Proof. apply catch_500_returns. Qed.


(** C8. Every conversation [createConversation] creates (status 201) is a
    new row stored with [active] true, whatever [active] the input carried. *)
Theorem createConversation_active
    (input : option ConversationDataInput.t) (db db' : Db)
    (r : PrismaResponse.t View.t) (calls : list call) :
  createConversation JSON_parse JSON_stringify methods input db = (Ret r, db', calls) ->
  PrismaResponse.status r = 201%nat ->
  exists v,
    PrismaResponse.data r = Some v
    /\ conversations db !! View.id v = None
    /\ conversations db' !! View.id v = Some (View.row v)
    /\ Conversation.active (View.row v) = true.
Proof.
  intros Hrun Hst.
  destruct (createConversation_201 _ _ _ _ _ Hrun Hst)
    as (i & u & m & t & user & model & g & mp & c
        & _ & _ & _ & _ & _ & _ & _ & _ & -> & Hfresh & Hfn & -> & ->).
  eexists. split; [reflexivity|]. rewrite view_id, view_row by done. simpl.
  split; [exact Hfresh|]. split; [|reflexivity].
  rewrite restrict_insert by done. apply lookup_insert_eq.
Qed.

End CreateConversation.



Lemma createConversation_active_witness :
  exists r db' calls v,
    createConversation Sample.JSON_parse Sample.JSON_stringify Sample.methods
      (Some (Sample.input 1 false)) Sample.db
    = (Ret r, db', calls)
    /\ PrismaResponse.status r = 201%nat
    /\ ConversationDataInput.active (Sample.input 1 false) = Some false
    /\ PrismaResponse.data r = Some v
    /\ conversations db' !! View.id v = Some (View.row v)
    /\ Conversation.active (View.row v) = true.
Proof.
  destruct (createConversation_returns Sample.JSON_parse Sample.JSON_stringify
              Sample.methods
              (Some (Sample.input 1 false)) Sample.db) as (r & db' & calls & Hrun).
  assert (PrismaResponse.status r = 201%nat) as Hst.
  { vm_compute in Hrun. by injection Hrun as <- _ _. }
  destruct (createConversation_active Sample.JSON_parse Sample.JSON_stringify
              Sample.methods
              _ _ _ _ _ Hrun Hst) as (v & Hv & _ & Hrow & Hactive).
  exists r, db', calls, v. repeat split; assumption.
Defined.

(** ** The specification's end-to-end scenario *)

(** Create a conversation for user 1 and model 2 with the title "Test": 201,
    [active] true, [parameters] the text [{}]. Deactivate it: 200. The user's
    list then holds the other active conversation only, and the conversation
    is still answered by id, inactive. *)
Example create_deactivate_list_get :
  exists v db1 db2 l d calls1 calls2 calls3 calls4,
    createConversation Sample.JSON_parse Sample.JSON_stringify Sample.methods
      (Some (Sample.input 1 false)) Sample.db
    = (Ret (success 201 (Some v) None), db1, calls1)
    /\ View.id v = 3
    /\ Conversation.active (View.row v) = true
    /\ Conversation.parameters (View.row v) = JStr (lit "{}")
    /\ deactivateConversationById (Some 3) db1
       = (Ret (success 200 None (Some "Conversation marked as inactive"%string)),
          db2, calls2)
    /\ getAllConversationsByUserId (Some 1) db2
       = (Ret (success 200 (Some l) None), db2, calls3)
    /\ View.id <$> l = [1]
    /\ getConversationById (Some 3) db2
       = (Ret (success 200 (Some d) None), db2, calls4)
    /\ Conversation.active (View.row d) = false.
Proof.
  do 9 eexists.
  split; [vm_compute; reflexivity|]. do 3 (split; [reflexivity|]).
  split; [vm_compute; reflexivity|].
  split; [vm_compute; reflexivity|]. split; [reflexivity|].
  split; [vm_compute; reflexivity|]. reflexivity.
Qed.

(** ** C9: the parameter set the modal saves *)

Module ModalProperties.
Import ModalParametersGPT.

Lemma same_deps_isSelected (a b : Deps) :
  same_deps a b = true -> dep_isSelected a = dep_isSelected b.
Proof.
  unfold same_deps. rewrite !andb_true_iff.
  intros [[[[[[[H _] _] _] _] _] _] _]. by apply bool_decide_eq_true in H.
Qed.

Lemma effect_off (env : Env) (s : State) :
  isSelected (effect env s) = false ->
  globalFormParams (effect env s) = local_values (effect env s).
Proof. unfold effect. by destruct (isSelected s) eqn:Hs; simpl; rewrite ?Hs. Qed.

Lemma step_off_invariant (c : Env * State) (ev : event) :
  off_invariant c -> off_invariant (step c ev).
Proof.
  intros Hinv. unfold step.
  destruct (same_deps _ _) eqn:Hdeps; [|intros Hoff; by apply effect_off].
  apply same_deps_isSelected in Hdeps.
  destruct c as [env s], ev as [v|v|v|b|env']; unfold off_invariant in *;
    simpl in *; intros Hoff.
  - by rewrite (Hinv Hoff).
  - by rewrite (Hinv Hoff).
  - by rewrite (Hinv Hoff).
  - subst b. by rewrite (Hinv Hoff).
  - by apply Hinv.
Qed.

Lemma run_off_invariant (env : Env) (events : list event) :
  off_invariant (run env events).
Proof.
  unfold run. induction events as [|ev events IH] using rev_ind.
  - simpl. intros Hoff. by apply effect_off.
  - rewrite fold_left_app. simpl. by apply step_off_invariant.
Qed.

Lemma toggle_changes_deps (c : Env * State) (b : bool) :
  isSelected c.2 <> b -> effect_runs c (Toggle b).
Proof.
  destruct c as [env s]. unfold effect_runs, same_deps. simpl. intros Hne.
  by rewrite bool_decide_false.
Qed.

(** C9, as stated, fails. The user's global contexts are "G" and "H" and the
    global temperature is 0; the conversation's are "L", "R" and 0.7. After
    the toggle is switched on, the saved user context is "G L", not "G"
    followed by "L", and the saved temperature is 0.7, not the global 0. *)
Lemma toggle_on_counterexample :
  let g := {| GlobalParameters.userContext := Some (lit "G");
              GlobalParameters.responseContext := Some (lit "H");
              GlobalParameters.temperature := Some (Num 0) |} in
  let env := {| userContext := lit "L"; responseContext := lit "R";
                temperature := Num (7 # 10); prismaUser := Some (Some g) |} in
  let s := (run env [Toggle true]).2 in
  isSelected s = true
  /\ updatedUserContext s = lit "L"
  /\ Parameters.userContext (handleSave s) = lit "G L"
  /\ Parameters.userContext (handleSave s) <> lit "G" ++ updatedUserContext s
  /\ Parameters.temperature (handleSave s) = Num (7 # 10)
  /\ Parameters.temperature (handleSave s) <> Num 0.
Proof. simpl. repeat split; done. Qed.

(** C9 (amended). With the toggle off, the set passed to [saveParameters] is
    always the locally typed and edited values as they are. With the toggle
    on, after any event that changed a dependency of the effect (switching
    the toggle on is one), the set passed has each context equal to the
    user's global context (empty when the user has none), one space, and the
    locally typed text; its temperature is the user's global temperature
    when that is set and not zero, and the [temperature] prop when the user
    has none. *)
Theorem saved_parameters :
  (forall env events,
     isSelected (run env events).2 = false ->
     handleSave (run env events).2 = local_values (run env events).2)
  /\ (forall c ev,
        effect_runs c ev ->
        isSelected (step c ev).2 = true ->
        let env := (step c ev).1 in
        let s := (step c ev).2 in
        Parameters.userContext (handleSave s)
        = default [] (global GlobalParameters.userContext env)
          ++ space ++ updatedUserContext s
        /\ Parameters.responseContext (handleSave s)
           = default [] (global GlobalParameters.responseContext env)
             ++ space ++ updatedResponseContext s
        /\ (forall t, global GlobalParameters.temperature env = Some t ->
                      truthy t = true ->
                      Parameters.temperature (handleSave s) = t)
        /\ (global GlobalParameters.temperature env = None ->
            Parameters.temperature (handleSave s) = temperature env))
  /\ (forall c, isSelected c.2 = false -> effect_runs c (Toggle true)).
Proof.
  split; [|split].
  - intros env events. apply run_off_invariant.
  - intros c ev Hruns. unfold step. unfold effect_runs in Hruns. rewrite Hruns.
    destruct (handle ev c) as [env s]. simpl. unfold effect.
    destruct (isSelected s) eqn:Hs; simpl; rewrite Hs; [intros _|done].
    unfold template, space.
    repeat split.
    + f_equal. by destruct (global GlobalParameters.userContext env) as [[|]|].
    + f_equal. by destruct (global GlobalParameters.responseContext env) as [[|]|].
    + intros t -> Ht. simpl. fold (truthy t). by rewrite Ht.
    + by intros ->.
  - intros c Hoff. apply toggle_changes_deps. by rewrite Hoff.
Qed.

Lemma saved_parameters_witness :
  let env := {| userContext := lit "L"; responseContext := lit "R";
                temperature := Num (7 # 10);
                prismaUser :=
                  Some (Some {| GlobalParameters.userContext := Some (lit "G");
                                GlobalParameters.responseContext := None;
                                GlobalParameters.temperature := Some (Num (1 # 2)) |}) |} in
  let s := (step (mount env) (Toggle true)).2 in
  isSelected s = true
  /\ Parameters.userContext (handleSave s) = lit "G L"
  /\ Parameters.responseContext (handleSave s) = lit " R"
  /\ Parameters.temperature (handleSave s) = Num (1 # 2).
Proof.
  intros env s.
  assert (isSelected s = true) as Hon by reflexivity.
  destruct saved_parameters as (_ & Hon_case & Htoggle).
  destruct (Hon_case (mount env) (Toggle true) (Htoggle (mount env) eq_refl) Hon)
    as (Hu & Hr & Ht & _).
  split; [exact Hon|]. split; [exact Hu|]. split; [exact Hr|].
  exact (Ht (Num (1 # 2)) eq_refl eq_refl).
Defined.

(** With the toggle on, an edit that leaves the local text as it was changes
    no dependency: the effect does not run again, and the form keeps the
    edited text without the global context. *)
Example unchanged_edit_skips_effect :
  let g := {| GlobalParameters.userContext := Some (lit "G");
              GlobalParameters.responseContext := Some (lit "H");
              GlobalParameters.temperature := Some (Num (1 # 2)) |} in
  let env := {| userContext := lit "L"; responseContext := lit "R";
                temperature := Num (7 # 10); prismaUser := Some (Some g) |} in
  let s := (run env [Toggle true; ChangeUserContext (lit "L")]).2 in
  isSelected s = true
  /\ updatedUserContext s = lit "L"
  /\ Parameters.userContext (handleSave s) = lit "L".
Proof. simpl. repeat split; done. Qed.

End ModalProperties.


(** * Further properties of the data-access module *)

(** ** The shape of every outcome *)

Lemma failed_failure {T} (st : nat) (msg : string) :
  st = 400%nat \/ st = 404%nat \/ st = 500%nat -> failed (T := T) (failure st msg).
Proof. intros H. split; [exact H|]. split; [done|]. by eexists. Qed.

Lemma failed_internal_error {T} (e : error) : failed (T := T) (internal_error e).
Proof. split; [right; right; reflexivity|]. split; [done|]. by eexists. Qed.

Ltac failed_now :=
  lazymatch goal with
  | |- failed (internal_error _) => apply failed_internal_error
  | |- failed (failure 400 _) => apply failed_failure; left; reflexivity
  | |- failed (failure 404 _) => apply failed_failure; right; left; reflexivity
  end.

Lemma failed_envelope {T} (r : PrismaResponse.t T) : failed r -> envelope r.
Proof. intros H. by right. Qed.

(** What one [update] call leaves behind. *)
Lemma conversation_update_cases (id : option Z) (data : UpdateData.t) (inc : include)
    (db db' : Db) (o : outcome (option View.t)) (calls : list call) :
  conversation_update id data inc db = (o, db', calls) ->
  calls = [ConversationUpdate id]
  /\ ((exists e, o = Throw e /\ db' = db)
      \/ (exists i c,
            id = Some i
            /\ conversations db !! i = Some c
            /\ all_tags_exist db (default [] (UpdateData.set_tags data)) = true
            /\ db' = set_conversations (insert i (apply_update data c)) db
            /\ o = Ret (Some (view inc db' i (apply_update data c))))).
Proof.
  unfold conversation_update, updated_conversation, unique_key.
  destruct id as [i|]; simpl; [|intros [= <- <- <-]; split; [done|]; left; eauto].
  destruct (fits i); simpl; [|intros [= <- <- <-]; split; [done|]; left; eauto].
  destruct (conversations db !! i) as [c|] eqn:Hc;
    [|intros [= <- <- <-]; split; [done|]; left; eauto].
  destruct (all_tags_exist db _) eqn:Hall;
    [|intros [= <- <- <-]; split; [done|]; left; eauto].
  intros [= <- <- <-]. split; [done|]. right. by exists i, c.
Qed.

Lemma getAllConversationsByUserId_cases (idUser : option Z) (db db' : Db)
    (o : outcome (PrismaResponse.t (list View.t))) (calls : list call) :
  getAllConversationsByUserId idUser db = (o, db', calls) ->
  db' = db
  /\ Forall (fun c => is_write c = false) calls
  /\ exists r, o = Ret r
       /\ (failed r \/ exists l, r = success 200 (Some l) None).
Proof.
  unfold getAllConversationsByUserId, catch_500, try_catch.
  destruct (negb (truthy idUser) || js_lt0 idUser).
  { intros [= <- <- <-]. repeat split; [constructor|]. eexists. split; [done|]. left.
    failed_now. }
  unfold mbind, M_bind, user_findUnique, conversation_findMany_active, query,
    unique_key, filter_key.
  destruct idUser as [u|]; simpl.
  2: { intros [= <- <- <-]. repeat split; [repeat constructor|]. eexists.
       split; [done|]. left. failed_now. }
  destruct (fits u); simpl.
  2: { intros [= <- <- <-]. repeat split; [repeat constructor|]. eexists.
       split; [done|]. left. failed_now. }
  destruct (users db !! u) as [usr|]; simpl.
  2: { intros [= <- <- <-]. repeat split; [repeat constructor|]. eexists.
       split; [done|]. left. failed_now. }
  case_bool_decide; simpl; intros [= <- <- <-]; (repeat split; [repeat constructor|]);
    eexists; (split; [done|]).
  - left. failed_now.
  - right. by eexists.
Qed.

Lemma getConversationById_cases (id : option Z) (db db' : Db)
    (o : outcome (PrismaResponse.t View.t)) (calls : list call) :
  getConversationById id db = (o, db', calls) ->
  db' = db
  /\ Forall (fun c => is_write c = false) calls
  /\ exists r, o = Ret r
       /\ (failed r \/ exists v, r = success 200 (Some v) None).
Proof.
  unfold getConversationById, catch_500, try_catch.
  destruct (negb (truthy id) || js_le0 id).
  { intros [= <- <- <-]. repeat split; [constructor|]. eexists. split; [done|]. left.
    failed_now. }
  unfold mbind, M_bind, conversation_findUnique, query, unique_key.
  destruct id as [i|]; simpl.
  2: { intros [= <- <- <-]. repeat split; [repeat constructor|]. eexists.
       split; [done|]. left. failed_now. }
  destruct (fits i); simpl.
  2: { intros [= <- <- <-]. repeat split; [repeat constructor|]. eexists.
       split; [done|]. left. failed_now. }
  destruct (conversations db !! i) as [c|]; simpl; intros [= <- <- <-];
    (repeat split; [repeat constructor|]); eexists; (split; [done|]).
  - right. by eexists.
  - left. failed_now.
Qed.

Lemma createConversation_cases JSON_parse JSON_stringify methods
    (input : option ConversationDataInput.t) (db db' : Db)
    (o : outcome (PrismaResponse.t View.t)) (calls : list call) :
  createConversation JSON_parse JSON_stringify methods input db = (o, db', calls) ->
  exists r, o = Ret r
    /\ (PrismaResponse.status r = 201%nat
        \/ (failed r
            /\ (db' = db
                \/ (db' = bump_conversation_id db /\ ConversationCreate ∈ calls)))).
Proof.
  unfold createConversation, catch_500, try_catch.
  assert (forall (r : PrismaResponse.t View.t) l,
            failed r ->
            (Ret r, db, l) = (o, db', calls) ->
            exists r, o = Ret r
              /\ (PrismaResponse.status r = 201%nat
                  \/ (failed r
                      /\ (db' = db
                          \/ (db' = bump_conversation_id db
                              /\ ConversationCreate ∈ calls))))) as Hfail.
  { intros r l Hr [= <- <- _]. eexists. split; [done|]. right. split; [done|]. by left. }
  destruct input as [i|]; simpl; [|apply Hfail; failed_now].
  destruct (negb (truthy (ConversationDataInput.idUser i)) || _ || _);
    [apply Hfail; failed_now|].
  unfold mbind, M_bind, user_findUnique, model_findUnique, query, unique_key.
  destruct (ConversationDataInput.idUser i) as [u|] eqn:Hu; simpl;
    [|apply Hfail; failed_now].
  destruct (fits u); simpl; [|apply Hfail; failed_now].
  destruct (users db !! u) as [user|] eqn:Huser; simpl; [|apply Hfail; failed_now].
  destruct (ConversationDataInput.idModel i) as [m|] eqn:Hm; simpl;
    [|apply Hfail; failed_now].
  destruct (fits m); simpl; [|apply Hfail; failed_now].
  destruct (models db !! m) as [model|] eqn:Hmodel; simpl; [|apply Hfail; failed_now].
  destruct ((if truthy (User.globalParameters user)
             then parse JSON_parse (js_String (User.globalParameters user))
             else mret empty_object) db) as [[[g|e] d1] l1] eqn:Hparse.
  2: { assert (d1 = db) as ->.
       { unfold parse, throw in Hparse. destruct (truthy _); [|done].
         destruct (JSON_parse _); by injection Hparse as _ <- _. }
       simpl. apply Hfail; failed_now. }
  assert (d1 = db) as ->.
  { unfold parse, throw in Hparse. destruct (truthy _); [|by injection Hparse as _ <- _].
    destruct (JSON_parse _); by injection Hparse as _ <- _. }
  unfold lift.
  destruct (get_property methods g (Model.name model)) as [mp|e]; simpl;
    [|apply Hfail; failed_now].
  unfold conversation_create.
  destruct (new_conversation _) as [c|e]; simpl; [|apply Hfail; failed_now].
  destruct (insert_check db _) as [[]|e]; simpl.
  { intros [= <- _ _]. eexists. split; [done|]. by left. }
  destruct (fits (next_conversation_id db)); [|apply Hfail; failed_now].
  intros [= <- <- <-]. eexists. split; [done|]. right. split; [failed_now|]. right.
  split; [done|]. simpl. repeat constructor.
  rewrite !elem_of_app. left. right. by apply list_elem_of_singleton.
Qed.

Lemma updateConversationById_cases (id : option Z) (updatedInfo : UpdatedInfo.t)
    (includeRelatedEntities : bool) (db db' : Db)
    (o : outcome (PrismaResponse.t View.t)) (calls : list call) :
  updateConversationById id updatedInfo includeRelatedEntities db = (o, db', calls) ->
  exists r, o = Ret r
    /\ ((db' = db /\ failed r)
        \/ (exists i c c',
              id = Some i /\ 0 < i
              /\ blank_title (UpdatedInfo.title updatedInfo) = false
              /\ conversations db !! i = Some c
              /\ all_tags_exist db (default [] (UpdatedInfo.tags updatedInfo)) = true
              /\ c' = apply_update
                        {| UpdateData.set_tags := UpdatedInfo.tags updatedInfo;
                           UpdateData.title :=
                             if truthy (UpdatedInfo.title updatedInfo)
                             then UpdatedInfo.title updatedInfo else None;
                           UpdateData.parameters := None;
                           UpdateData.active := None |} c
              /\ db' = set_conversations (insert i c') db
              /\ calls = [ConversationUpdate id]
              /\ r = success 200
                       (Some (view (if includeRelatedEntities then IncludeAll
                                    else IncludeTags) db' i c')) None)).
Proof.
  unfold updateConversationById, catch_500, try_catch.
  destruct (negb (truthy id) || js_le0 id) eqn:Hguard.
  { intros [= <- <- _]. eexists. split; [done|]. left. split; [done|]. failed_now. }
  fold (blank_title (UpdatedInfo.title updatedInfo)).
  destruct (blank_title (UpdatedInfo.title updatedInfo)) eqn:Hblank.
  { intros [= <- <- _]. eexists. split; [done|]. left. split; [done|]. failed_now. }
  unfold mbind, M_bind.
  destruct (conversation_update id _ _ db) as [[o1 d1] l1] eqn:Hupd.
  apply conversation_update_cases in Hupd as [-> [(e & -> & ->)|Hok]].
  { intros [= <- <- _]. eexists. split; [done|]. left. split; [done|]. failed_now. }
  destruct Hok as (i & c & -> & Hc & Hall & -> & ->). simpl.
  intros [= <- <- <-]. eexists. split; [done|]. right.
  exists i, c. eexists. repeat split; try done.
  destruct (Z.eqb_spec i 0) as [->|Hne]; [done|].
  simpl in Hguard. rewrite truthy_id in Hguard.
  destruct (Z.eqb_spec i 0); [done|]. simpl in Hguard. apply Z.leb_gt in Hguard. lia.
Qed.

Lemma updateConversationParameters_cases (valid : json -> bool) (id : option Z)
    (parameters : json) (db db' : Db)
    (o : outcome (PrismaResponse.t View.t)) (calls : list call) :
  updateConversationParameters valid id parameters db = (o, db', calls) ->
  exists r, o = Ret r
    /\ ((db' = db /\ failed r)
        \/ (exists i c c',
              id = Some i
              /\ valid parameters = true
              /\ conversations db !! i = Some c
              /\ c' = apply_update
                        {| UpdateData.set_tags := None; UpdateData.title := None;
                           UpdateData.parameters := Some parameters;
                           UpdateData.active := None |} c
              /\ db' = set_conversations (insert i c') db
              /\ calls = [ConversationUpdate id]
              /\ r = success 200 (Some (view IncludeNothing db' i c')) None)).
Proof.
  unfold updateConversationParameters.
  destruct (valid parameters) eqn:Hv; simpl.
  2: { intros [= <- <- _]. eexists. split; [done|]. left. split; [done|]. failed_now. }
  unfold catch_500, try_catch, mbind, M_bind.
  destruct (conversation_update id _ _ db) as [[o1 d1] l1] eqn:Hupd.
  apply conversation_update_cases in Hupd as [-> [(e & -> & ->)|Hok]].
  { intros [= <- <- _]. eexists. split; [done|]. left. split; [done|]. failed_now. }
  destruct Hok as (i & c & -> & Hc & Hall & -> & ->). simpl.
  intros [= <- <- <-]. eexists. split; [done|]. right.
  exists i, c. eexists. by repeat split.
Qed.

Lemma deactivateConversationById_cases (id : option Z) (db db' : Db)
    (o : outcome (PrismaResponse.t unit)) (calls : list call) :
  deactivateConversationById id db = (o, db', calls) ->
  exists r, o = Ret r
    /\ ((db' = db /\ failed r)
        \/ (exists i c,
              id = Some i
              /\ conversations db !! i = Some c
              /\ db' = set_conversations (insert i (apply_update deactivate c)) db
              /\ calls = [ConversationUpdate id]
              /\ r = success 200 None (Some "Conversation marked as inactive"%string))).
Proof.
  unfold deactivateConversationById, catch_500, try_catch.
  destruct (negb (truthy id) || js_le0 id) eqn:Hguard.
  { intros [= <- <- _]. eexists. split; [done|]. left. split; [done|]. failed_now. }
  unfold mbind, M_bind.
  destruct (conversation_update id _ _ db) as [[o1 d1] l1] eqn:Hupd.
  apply conversation_update_cases in Hupd as [-> [(e & -> & ->)|Hok]].
  { intros [= <- <- _]. eexists. split; [done|]. left. split; [done|]. failed_now. }
  destruct Hok as (i & c & -> & Hc & Hall & -> & ->). simpl.
  intros [= <- <- <-]. eexists. split; [done|]. right.
  exists i, c. by repeat split.
Qed.

Lemma deactivate_none_unchanged (idUser : option Z) (db : Db) :
  size (filter (fun kv => owned_by idUser kv.2 = true) (conversations db)) = 0%nat ->
  set_conversations (fmap (deactivate_owned idUser)) db = db.
Proof.
  intros Hn. apply map_size_empty_iff in Hn.
  apply Db_eq; try done. rewrite conversations_mapped.
  rewrite <- (map_fmap_id (conversations db)) at 2. apply map_fmap_ext. intros k c Hk.
  unfold deactivate_owned. destruct (owned_by idUser c) eqn:Ho; [|done].
  assert (filter (fun kv => owned_by idUser kv.2 = true) (conversations db) !! k
          = Some c) as Hin
    by (by apply map_lookup_filter_Some).
  rewrite Hn in Hin. by rewrite lookup_empty in Hin.
Qed.

Lemma deactivateAllConversationsByUserId_cases (idUser : option Z) (db db' : Db)
    (o : outcome (PrismaResponse.t nat)) (calls : list call) :
  deactivateAllConversationsByUserId idUser db = (o, db', calls) ->
  exists r, o = Ret r
    /\ ((db' = db /\ failed r)
        \/ (exists u n,
              idUser = Some u
              /\ is_Some (users db !! u)
              /\ n = size (filter (fun kv => owned_by idUser kv.2 = true)
                                  (conversations db))
              /\ n <> 0%nat
              /\ db' = set_conversations (fmap (deactivate_owned idUser)) db
              /\ r = success 200 (Some n)
                       (Some "Conversations marked as inactive"%string))).
Proof.
  unfold deactivateAllConversationsByUserId, catch_500, try_catch,
    mbind, M_bind, user_findUnique, conversation_updateMany, query,
    unique_key, filter_key.
  destruct idUser as [u|]; simpl.
  2: { intros [= <- <- _]. eexists. split; [done|]. left. split; [done|]. failed_now. }
  destruct (fits u); simpl.
  2: { intros [= <- <- _]. eexists. split; [done|]. left. split; [done|]. failed_now. }
  destruct (users db !! u) as [usr|] eqn:Hu; simpl.
  2: { intros [= <- <- _]. eexists. split; [done|]. left. split; [done|]. failed_now. }
  case_bool_decide as Hn; simpl; intros [= <- <- _]; eexists; (split; [done|]).
  - left. split; [|failed_now]. by apply (deactivate_none_unchanged (Some u)).
  - right. exists u. eexists. by repeat split.
Qed.

Lemma deleteConversationById_cases (id : option Z) (db db' : Db)
    (o : outcome (PrismaResponse.t unit)) (calls : list call) :
  deleteConversationById id db = (o, db', calls) ->
  exists r, o = Ret r
    /\ ((db' = db /\ failed r)
        \/ (exists i, id = Some i /\ 0 < i
              /\ conversations db !! i = None
              /\ db' = without_messages i db
              /\ r = internal_error PrismaRecordNotFound)
        \/ (exists i c,
              id = Some i /\ 0 < i
              /\ conversations db !! i = Some c
              /\ db' = set_conversations (delete i) (without_messages i db)
              /\ r = success 200 None
                       (Some "Conversation and associated messages successfully deleted"%string))).
Proof.
  unfold deleteConversationById, catch_500, try_catch.
  destruct (negb (truthy id) || js_le0 id) eqn:Hguard.
  { intros [= <- <- _]. eexists. split; [done|]. left. split; [done|]. failed_now. }
  destruct id as [i|]; [|done].
  assert (0 < i) as Hi.
  { simpl in Hguard. rewrite truthy_id in Hguard.
    destruct (Z.eqb_spec i 0); [done|]. simpl in Hguard. apply Z.leb_gt in Hguard. lia. }
  unfold mbind, M_bind, message_deleteMany, conversation_delete, query,
    filter_key, unique_key.
  destruct (fits i); simpl.
  2: { intros [= <- <- _]. eexists. split; [done|]. left. split; [done|]. failed_now. }
  destruct (conversations db !! i) as [c|] eqn:Hc; simpl;
    intros [= <- <- _]; eexists; (split; [done|]); right.
  - right. exists i, c. by repeat split.
  - left. exists i. by repeat split.
Qed.


(** ** Referential integrity *)

Lemma tags_after_update (db : Db) (data : UpdateData.t) (c : Conversation.t) (t : Z) :
  all_tags_exist db (default [] (UpdateData.set_tags data)) = true ->
  (forall t, t ∈ Conversation.tags c -> is_Some (tag_rows db !! t)) ->
  t ∈ Conversation.tags (apply_update data c) -> is_Some (tag_rows db !! t).
Proof.
  intros Hall Hold. simpl. destruct (UpdateData.set_tags data) as [ids|]; [|apply Hold].
  rewrite elem_of_list_to_set. simpl in Hall. by apply all_tags_exist_iff.
Qed.

Lemma db_wf_update (db : Db) (i : Z) (c : Conversation.t) (data : UpdateData.t) :
  db_wf db ->
  conversations db !! i = Some c ->
  all_tags_exist db (default [] (UpdateData.set_tags data)) = true ->
  db_wf (set_conversations (insert i (apply_update data c)) db).
Proof.
  intros (Hseq & Hconv & Hmsg) Hc Hall.
  pose proof (conversations_fit db i c Hc) as Hfit.
  split; [exact Hseq|]. split.
  - intros k x. rewrite conversations_inserted by done. rewrite lookup_insert_Some.
    intros [[<- <-]|[Hne Hk]]; [|by apply (Hconv k x)].
    destruct (Hconv i c Hc) as (Hi & Hu & Hm & Ht).
    split; [exact Hi|]. split; [exact Hu|]. split; [exact Hm|].
    intros t. by apply tags_after_update.
  - intros k m Hk. rewrite conversations_inserted by done.
    destruct (Hmsg k m Hk) as [x Hx].
    destruct (decide (i = Message.idConversation m)) as [<-|Hne].
    + rewrite lookup_insert_eq. by eexists.
    + rewrite lookup_insert_ne by done. by eexists.
Qed.

Lemma db_wf_deactivate_owned (db : Db) (idUser : option Z) :
  db_wf db -> db_wf (set_conversations (fmap (deactivate_owned idUser)) db).
Proof.
  intros (Hseq & Hconv & Hmsg). split; [exact Hseq|]. split.
  - intros k x. rewrite conversations_mapped, lookup_fmap.
    destruct (conversations db !! k) as [c|] eqn:Hc; simpl; [|done].
    intros [= <-]. destruct (Hconv k c Hc) as (Hi & Hu & Hm & Ht).
    unfold deactivate_owned. by destruct (owned_by idUser c).
  - intros k m Hk. rewrite conversations_mapped, lookup_fmap.
    destruct (Hmsg k m Hk) as [x ->]. by eexists.
Qed.

Lemma db_wf_without_messages (db : Db) (i : Z) :
  db_wf db -> db_wf (without_messages i db).
Proof.
  intros (Hseq & Hconv & Hmsg). split; [exact Hseq|]. split; [exact Hconv|].
  intros k m. simpl. intros [Hk _]%map_lookup_filter_Some. by apply (Hmsg k m).
Qed.

Lemma db_wf_delete (db : Db) (i : Z) :
  db_wf db -> db_wf (set_conversations (delete i) (without_messages i db)).
Proof.
  intros (Hseq & Hconv & Hmsg). split; [exact Hseq|]. split.
  - intros k x. rewrite conversations_deleted, lookup_delete_Some.
    intros [_ Hk]. by apply (Hconv k x).
  - intros k m. rewrite conversations_deleted. simpl.
    intros [Hk Hne]%map_lookup_filter_Some. simpl in Hne.
    apply Z.eqb_neq in Hne. rewrite lookup_delete_ne by done. by apply (Hmsg k m).
Qed.

(** Drawing an id from the sequence leaves the database intact. *)
Lemma db_wf_bump (db : Db) : db_wf db -> db_wf (bump_conversation_id db).
Proof.
  intros (Hseq & Hconv & Hmsg). split; [simpl; lia|]. split; [|exact Hmsg].
  intros k x Hk. destruct (Hconv k x Hk) as (Hi & Hrest).
  split; [simpl; lia|exact Hrest].
Qed.

Lemma db_wf_create (db : Db) (c : Conversation.t) :
  db_wf db ->
  fits (next_conversation_id db) = true ->
  is_Some (users db !! Conversation.idUser c) ->
  is_Some (models db !! Conversation.idModel c) ->
  (forall t, t ∈ Conversation.tags c -> is_Some (tag_rows db !! t)) ->
  db_wf (bump_conversation_id
           (set_conversations (insert (next_conversation_id db) c) db)).
Proof.
  intros (Hseq & Hconv & Hmsg) Hfit Hu Hm Ht. split; [simpl; lia|]. split.
  - intros k x. simpl. rewrite restrict_insert by done. rewrite lookup_insert_Some.
    intros [[<- <-]|[Hne Hk]].
    + split; [simpl; lia|]. by repeat split.
    + destruct (Hconv k x Hk) as (Hi & Hu' & Hm' & Ht').
      split; [simpl; lia|]. by repeat split.
  - intros k m Hk. simpl. rewrite restrict_insert by done.
    destruct (Hmsg k m Hk) as [x Hx].
    destruct (decide (next_conversation_id db = Message.idConversation m)) as [<-|Hne].
    + rewrite lookup_insert_eq. by eexists.
    + rewrite lookup_insert_ne by done. by eexists.
Qed.

Lemma createConversation_201_tags JSON_parse JSON_stringify methods
    (i : ConversationDataInput.t) (db db' : Db)
    (r : PrismaResponse.t View.t) (calls : list call) :
  createConversation JSON_parse JSON_stringify methods (Some i) db = (Ret r, db', calls) ->
  PrismaResponse.status r = 201%nat ->
  all_tags_exist db (default [] (ConversationDataInput.tags i)) = true.
Proof.
  unfold createConversation, catch_500, try_catch. simpl.
  destruct (negb (truthy (ConversationDataInput.idUser i)) || _ || _);
    [by intros [= <- _ _]|].
  unfold mbind, M_bind, user_findUnique, model_findUnique, query, unique_key.
  destruct (ConversationDataInput.idUser i) as [u|] eqn:Hu; simpl;
    [|by intros [= <- _ _]].
  destruct (fits u) eqn:Hfu; simpl; [|by intros [= <- _ _]].
  destruct (users db !! u) as [user|]; simpl; [|by intros [= <- _ _]].
  destruct (ConversationDataInput.idModel i) as [m|] eqn:Hm; simpl;
    [|by intros [= <- _ _]].
  destruct (fits m) eqn:Hfm; simpl; [|by intros [= <- _ _]].
  destruct (models db !! m) as [model|]; simpl; [|by intros [= <- _ _]].
  destruct ((if truthy (User.globalParameters user)
             then parse JSON_parse (js_String (User.globalParameters user))
             else mret empty_object) db) as [[[g|e] d1] l1] eqn:Hparse;
    [|by intros [= <- _ _]].
  assert (d1 = db) as ->.
  { unfold parse, throw in Hparse. destruct (truthy _); [|by injection Hparse as _ <- _].
    destruct (JSON_parse _); by injection Hparse as _ <- _. }
  unfold lift.
  destruct (get_property methods g (Model.name model)) as [mp|e]; simpl;
    [|by intros [= <- _ _]].
  unfold conversation_create, new_conversation, insert_check. simpl.
  rewrite ?Hu, ?Hm.
  destruct (ConversationDataInput.title i) as [t|]; simpl; [|by intros [= <- _ _]].
  rewrite Hfu, Hfm. simpl.
  destruct (fits (next_conversation_id db)); simpl; [|by intros [= <- _ _]].
  case_bool_decide; simpl; [by intros [= <- _ _]|].
  destruct (all_tags_exist db _); simpl; [done|by intros [= <- _ _]].
Qed.

Lemma failed_not_201 {T} (r : PrismaResponse.t T) :
  failed r -> PrismaResponse.status r <> 201%nat.
Proof. intros [[H|[H|H]] _] E; rewrite E in H; discriminate H. Qed.

Lemma failed_not_200 {T} (r : PrismaResponse.t T) :
  failed r -> PrismaResponse.status r <> 200%nat.
Proof. intros [[H|[H|H]] _] E; rewrite E in H; discriminate H. Qed.

Lemma sample_db_wf : db_wf Sample.db.
Proof.
  split; [done|]. split.
  - intros id c. unfold Sample.db. simpl.
    rewrite lookup_insert_Some, lookup_singleton_Some.
    intros [[<- <-]|[_ [<- <-]]].
    + split; [done|]. split; [by eexists|]. split; [by eexists|].
      intros t Ht. simpl in Ht. apply elem_of_singleton in Ht as ->. by eexists.
    + split; [done|]. split; [by eexists|]. split; [by eexists|].
      intros t Ht. simpl in Ht. by apply elem_of_empty in Ht.
  - intros k m. unfold Sample.db. simpl.
    rewrite lookup_singleton_Some. intros [<- <-]. by eexists.
Qed.

(** X1: every function keeps the database referentially intact. *)
Theorem referential_integrity_preserved (db : Db) :
  db_wf db ->
  (forall idUser o db' calls,
     getAllConversationsByUserId idUser db = (o, db', calls) -> db_wf db')
  /\ (forall id o db' calls,
        getConversationById id db = (o, db', calls) -> db_wf db')
  /\ (forall JSON_parse JSON_stringify methods input o db' calls,
        createConversation JSON_parse JSON_stringify methods input db = (o, db', calls) ->
        db_wf db')
  /\ (forall id updatedInfo includeRelatedEntities o db' calls,
        updateConversationById id updatedInfo includeRelatedEntities db
        = (o, db', calls) -> db_wf db')
  /\ (forall valid id parameters o db' calls,
        updateConversationParameters valid id parameters db = (o, db', calls) ->
        db_wf db')
  /\ (forall id o db' calls,
        deactivateConversationById id db = (o, db', calls) -> db_wf db')
  /\ (forall idUser o db' calls,
        deactivateAllConversationsByUserId idUser db = (o, db', calls) -> db_wf db')
  /\ (forall id o db' calls,
        deleteConversationById id db = (o, db', calls) -> db_wf db').
Proof.
  intros Hwf.
  split; [|split; [|split; [|split; [|split; [|split; [|split]]]]]].
  - intros idUser o db' calls Hrun.
    by apply getAllConversationsByUserId_cases in Hrun as [-> _].
  - intros id o db' calls Hrun.
    by apply getConversationById_cases in Hrun as [-> _].
  - intros JSON_parse JSON_stringify methods input o db' calls Hrun.
    destruct (createConversation_cases _ _ _ _ _ _ _ _ Hrun)
      as (r & -> & [Hst|[_ [->|[-> _]]]]); [|done|by apply db_wf_bump].
    destruct (createConversation_201 _ _ _ _ _ _ _ _ Hrun Hst)
      as (i & u & m & t & user & model & g & mp & c
          & -> & _ & _ & _ & Huser & Hmodel & _ & _ & -> & _ & Hfn & -> & _).
    apply db_wf_create; simpl; [done|done|by eexists|by eexists|].
    intros x Hx. apply elem_of_list_to_set in Hx.
    by apply (proj1 (all_tags_exist_iff _ _)
                (createConversation_201_tags _ _ _ _ _ _ _ _ Hrun Hst)).
  - intros id info inc o db' calls Hrun.
    apply updateConversationById_cases in Hrun
      as (r & _ & [[-> _]|(i & c & c' & _ & _ & _ & Hc & Hall & -> & -> & _)]);
      [done|]. by apply db_wf_update.
  - intros valid id p o db' calls Hrun.
    apply updateConversationParameters_cases in Hrun
      as (r & _ & [[-> _]|(i & c & c' & _ & _ & Hc & -> & -> & _)]);
      [done|]. by apply db_wf_update.
  - intros id o db' calls Hrun.
    apply deactivateConversationById_cases in Hrun
      as (r & _ & [[-> _]|(i & c & _ & Hc & -> & _)]); [done|]. by apply db_wf_update.
  - intros idUser o db' calls Hrun.
    apply deactivateAllConversationsByUserId_cases in Hrun
      as (r & _ & [[-> _]|(u & n & _ & _ & _ & _ & -> & _)]); [done|].
    by apply db_wf_deactivate_owned.
  - intros id o db' calls Hrun.
    apply deleteConversationById_cases in Hrun
      as (r & _ & [[-> _]|[(i & _ & _ & _ & -> & _)|(i & c & _ & _ & _ & -> & _)]]);
      [done| |].
    + by apply db_wf_without_messages.
    + by apply db_wf_delete.
Qed.

Lemma referential_integrity_preserved_witness :
  db_wf Sample.db
  /\ (forall o db' calls,
        deleteConversationById (Some 1) Sample.db = (o, db', calls) -> db_wf db')
  /\ (forall o db' calls,
        createConversation Sample.JSON_parse Sample.JSON_stringify Sample.methods
          (Some (Sample.input 2 true)) Sample.db = (o, db', calls) -> db_wf db').
Proof.
  pose proof (referential_integrity_preserved Sample.db sample_db_wf)
    as (_ & _ & Hcreate & _ & _ & _ & _ & Hdelete).
  split; [exact sample_db_wf|]. split.
  - exact (Hdelete (Some 1)).
  - exact (Hcreate Sample.JSON_parse Sample.JSON_stringify Sample.methods
             (Some (Sample.input 2 true))).
Defined.

(** ** What a call never does *)

(** X2: the two read functions never write. *)
Theorem reads_never_write :
  (forall idUser db o db' calls,
     getAllConversationsByUserId idUser db = (o, db', calls) ->
     db' = db /\ Forall (fun c => is_write c = false) calls)
  /\ (forall id db o db' calls,
        getConversationById id db = (o, db', calls) ->
        db' = db /\ Forall (fun c => is_write c = false) calls).
Proof.
  split.
  - intros idUser db o db' calls Hrun.
    by apply getAllConversationsByUserId_cases in Hrun as (? & ? & _).
  - intros id db o db' calls Hrun.
    by apply getConversationById_cases in Hrun as (? & ? & _).
Qed.

(** X3: a call that reports a failure has changed no row, with the two
    exceptions the code shows: [createConversation] may have drawn an id from
    the sequence, when its insert was sent and failed, and
    [deleteConversationById] may have deleted the messages of the
    conversation, its [deleteMany] running before the [delete] that fails. *)
Theorem failed_calls_leave_rows (db : Db) :
  (forall JSON_parse JSON_stringify methods input r db' calls,
     createConversation JSON_parse JSON_stringify methods input db = (Ret r, db', calls) ->
     failed r ->
     (db' = db \/ db' = bump_conversation_id db)
     /\ (ConversationCreate ∉ calls -> db' = db))
  /\ (forall id updatedInfo includeRelatedEntities r db' calls,
        updateConversationById id updatedInfo includeRelatedEntities db
        = (Ret r, db', calls) ->
        failed r -> db' = db)
  /\ (forall valid id parameters r db' calls,
        updateConversationParameters valid id parameters db = (Ret r, db', calls) ->
        failed r -> db' = db)
  /\ (forall id r db' calls,
        deactivateConversationById id db = (Ret r, db', calls) ->
        failed r -> db' = db)
  /\ (forall idUser r db' calls,
        deactivateAllConversationsByUserId idUser db = (Ret r, db', calls) ->
        failed r -> db' = db)
  /\ (forall id r db' calls,
        deleteConversationById id db = (Ret r, db', calls) ->
        failed r ->
        db' = db
        \/ (exists i, id = Some i
                      /\ PrismaResponse.status r = 500%nat
                      /\ db' = without_messages i db)).
Proof.
  split; [|split; [|split; [|split; [|split]]]].
  - intros JSON_parse JSON_stringify methods input r db' calls Hrun Hfailed.
    destruct (createConversation_cases _ _ _ _ _ _ _ _ Hrun)
      as (r' & [= <-] & [Hst|[_ [->|[-> Hin]]]]).
    + by apply failed_not_201 in Hfailed.
    + split; [by left|done].
    + split; [by right|]. by intros Hout.
  - intros id info inc r db' calls Hrun Hfailed.
    apply updateConversationById_cases in Hrun
      as (r' & [= <-] & [[-> _]|(i & c & c' & _ & _ & _ & _ & _ & _ & _ & _ & ->)]);
      [done|]. by apply failed_not_200 in Hfailed.
  - intros valid id p r db' calls Hrun Hfailed.
    apply updateConversationParameters_cases in Hrun
      as (r' & [= <-] & [[-> _]|(i & c & c' & _ & _ & _ & _ & _ & _ & ->)]);
      [done|]. by apply failed_not_200 in Hfailed.
  - intros id r db' calls Hrun Hfailed.
    apply deactivateConversationById_cases in Hrun
      as (r' & [= <-] & [[-> _]|(i & c & _ & _ & _ & _ & ->)]); [done|].
    by apply failed_not_200 in Hfailed.
  - intros idUser r db' calls Hrun Hfailed.
    apply deactivateAllConversationsByUserId_cases in Hrun
      as (r' & [= <-] & [[-> _]|(u & n & _ & _ & _ & _ & _ & ->)]); [done|].
    by apply failed_not_200 in Hfailed.
  - intros id r db' calls Hrun Hfailed.
    apply deleteConversationById_cases in Hrun
      as (r' & [= <-] & [[-> _]|[(i & -> & _ & _ & -> & ->)|(i & c & _ & _ & _ & _ & ->)]]);
      [by left| |by apply failed_not_200 in Hfailed].
    right. by exists i.
Qed.

(** Both exceptions occur. On the sample database a creation that names
    the tag 99, which does not exist, answers 500 and leaves the sequence at
    4; and on a database where a message refers to the conversation 9, which
    does not exist, the deletion of 9 answers 500 and has deleted the
    message. *)
Example failed_calls_that_wrote :
  (exists r db',
     createConversation Sample.JSON_parse Sample.JSON_stringify Sample.methods
       (Some {| ConversationDataInput.idUser := Some 1;
                ConversationDataInput.idModel := Some 2;
                ConversationDataInput.title := Some (lit "Test");
                ConversationDataInput.tags := Some [99];
                ConversationDataInput.parameters := None;
                ConversationDataInput.active := None;
                ConversationDataInput.useGlobalParameters := false |})
       Sample.db
     = (Ret r, db',
        [UserFindUnique (Some 1); ModelFindUnique (Some 2); ConversationCreate])
     /\ r = internal_error PrismaRelatedRecordNotFound
     /\ conversations db' = conversations Sample.db
     /\ next_conversation_id Sample.db = 3
     /\ next_conversation_id db' = 4)
  /\ (let orphan := set_messages
                      (insert 5 {| Message.idConversation := 9;
                                   Message.role := lit "user";
                                   Message.content := lit "lost" |})
                      Sample.db in
      exists r db',
        deleteConversationById (Some 9) orphan
        = (Ret r, db', [MessageDeleteMany (Some 9); ConversationDelete (Some 9)])
        /\ r = internal_error PrismaRecordNotFound
        /\ is_Some (messages orphan !! 5)
        /\ messages db' !! 5 = None).
Proof.
  split.
  - do 2 eexists. split; [vm_compute; reflexivity|]. by repeat split.
  - do 2 eexists. split; [vm_compute; reflexivity|]. by repeat split.
Qed.

(** X4: every call resolves, and to a well-shaped answer. *)
Theorem every_call_answers (db : Db) :
  (forall idUser o db' calls,
     getAllConversationsByUserId idUser db = (o, db', calls) ->
     exists r, o = Ret r /\ envelope r /\ PrismaResponse.status r <> 201%nat)
  /\ (forall id o db' calls,
        getConversationById id db = (o, db', calls) ->
        exists r, o = Ret r /\ envelope r /\ PrismaResponse.status r <> 201%nat)
  /\ (forall JSON_parse JSON_stringify methods input o db' calls,
        createConversation JSON_parse JSON_stringify methods input db = (o, db', calls) ->
        exists r, o = Ret r /\ envelope r /\ PrismaResponse.status r <> 200%nat)
  /\ (forall id updatedInfo includeRelatedEntities o db' calls,
        updateConversationById id updatedInfo includeRelatedEntities db
        = (o, db', calls) ->
        exists r, o = Ret r /\ envelope r /\ PrismaResponse.status r <> 201%nat)
  /\ (forall valid id parameters o db' calls,
        updateConversationParameters valid id parameters db = (o, db', calls) ->
        exists r, o = Ret r /\ envelope r /\ PrismaResponse.status r <> 201%nat)
  /\ (forall id o db' calls,
        deactivateConversationById id db = (o, db', calls) ->
        exists r, o = Ret r /\ envelope r /\ PrismaResponse.status r <> 201%nat)
  /\ (forall idUser o db' calls,
        deactivateAllConversationsByUserId idUser db = (o, db', calls) ->
        exists r, o = Ret r /\ envelope r /\ PrismaResponse.status r <> 201%nat)
  /\ (forall id o db' calls,
        deleteConversationById id db = (o, db', calls) ->
        exists r, o = Ret r /\ envelope r /\ PrismaResponse.status r <> 201%nat).
Proof.
  assert (forall T (r : PrismaResponse.t T),
            failed r -> envelope r /\ PrismaResponse.status r <> 201%nat) as Hf.
  { intros T r Hr. split; [by right | by apply failed_not_201]. }
  assert (forall T (d : option T) (m : option string),
            envelope (success 200 d m)
            /\ PrismaResponse.status (success 200 d m) <> 201%nat) as Hs.
  { intros T d m. split; [left; by left | discriminate]. }
  split; [|split; [|split; [|split; [|split; [|split; [|split]]]]]].
  - intros idUser o db' calls Hrun.
    apply getAllConversationsByUserId_cases in Hrun
      as (_ & _ & r & -> & [Hr|[l ->]]); eexists; (split; [done|]); auto.
  - intros id o db' calls Hrun.
    apply getConversationById_cases in Hrun
      as (_ & _ & r & -> & [Hr|[v ->]]); eexists; (split; [done|]); auto.
  - intros JSON_parse JSON_stringify methods input o db' calls Hrun.
    apply createConversation_cases in Hrun as (r & -> & [Hst|[Hr _]]);
      eexists; (split; [done|]).
    + split; [left; by right|]. rewrite Hst. discriminate.
    + split; [by right | by apply failed_not_200].
  - intros id info inc o db' calls Hrun.
    apply updateConversationById_cases in Hrun
      as (r & -> & [[_ Hr]|(i & c & c' & _ & _ & _ & _ & _ & _ & _ & _ & ->)]);
      eexists; (split; [done|]); auto.
  - intros valid id p o db' calls Hrun.
    apply updateConversationParameters_cases in Hrun
      as (r & -> & [[_ Hr]|(i & c & c' & _ & _ & _ & _ & _ & _ & ->)]);
      eexists; (split; [done|]); auto.
  - intros id o db' calls Hrun.
    apply deactivateConversationById_cases in Hrun
      as (r & -> & [[_ Hr]|(i & c & _ & _ & _ & _ & ->)]);
      eexists; (split; [done|]); auto.
  - intros idUser o db' calls Hrun.
    apply deactivateAllConversationsByUserId_cases in Hrun
      as (r & -> & [[_ Hr]|(u & n & _ & _ & _ & _ & _ & ->)]);
      eexists; (split; [done|]); auto.
  - intros id o db' calls Hrun.
    apply deleteConversationById_cases in Hrun
      as (r & -> & [[_ Hr]|[(i & _ & _ & _ & _ & ->)|(i & c & _ & _ & _ & _ & ->)]]);
      eexists; (split; [done|]); auto.
    apply Hf, failed_internal_error.
Qed.

(** ** Reading *)

Lemma view_ids (inc : include) (d : Db) (l : list (Z * Conversation.t)) :
  View.id <$> ((fun kv => view inc d kv.1 kv.2) <$> l) = l.*1.
Proof.
  rewrite <- list_fmap_compose. apply list_fmap_ext. intros _ [k c] _. apply view_id.
Qed.

(** X5: for a positive id that fits the column, the list holds each active
    conversation of the user exactly once, with its tags and the name of its
    model and the image of the model's provider, and nothing else of the
    model; an id that does not fit is refused by the client (500). *)
Theorem getAllConversationsByUserId_lists_active (idUser : Z) (db : Db) :
  0 < idUser ->
  exists r calls,
    getAllConversationsByUserId (Some idUser) db = (Ret r, db, calls)
    /\ (fits idUser = false ->
        r = internal_error PrismaValueOutOfRange
        /\ calls = [UserFindUnique (Some idUser)])
    /\ (fits idUser = true -> users db !! idUser = None ->
        r = failure 404 "User not found" /\ calls = [UserFindUnique (Some idUser)])
    /\ (is_Some (users db !! idUser) ->
        calls = [UserFindUnique (Some idUser); ConversationFindMany (Some idUser)]
        /\ (r = failure 404 "No conversations found for this user"
            <-> forall k c, conversations db !! k = Some c ->
                  Conversation.idUser c = idUser -> Conversation.active c = false)
        /\ (r = failure 404 "No conversations found for this user"
            \/ exists l, r = success 200 (Some l) None))
    /\ (forall l, PrismaResponse.data r = Some l ->
          PrismaResponse.status r = 200%nat
          /\ l <> []
          /\ NoDup (View.id <$> l)
          /\ (forall k, k ∈ View.id <$> l
                <-> exists c, conversations db !! k = Some c
                      /\ Conversation.idUser c = idUser
                      /\ Conversation.active c = true)
          /\ Forall (fun v =>
                       conversations db !! View.id v = Some (View.row v)
                       /\ View.tags v = Some (Conversation.tags (View.row v))
                       /\ View.messages v = None
                       /\ View.user v = None
                       /\ View.model v = None
                       /\ (forall m,
                             models db !! Conversation.idModel (View.row v) = Some m ->
                             exists s,
                               View.summary v = Some s
                               /\ Summary.name s = Model.name m
                               /\ Summary.image s
                                  = Provider.image <$> providers db !! Model.idProvider m))
                    l).
Proof.
  intros Hpos.
  unfold getAllConversationsByUserId, catch_500, try_catch.
  rewrite (idUser_guard_accepts idUser Hpos).
  unfold mbind, M_bind, user_findUnique, conversation_findMany_active, query,
    unique_key, filter_key.
  destruct (fits idUser) eqn:Hfit; simpl.
  2: { do 2 eexists. split; [done|]. split; [done|]. split; [done|].
       split; [|by intros l].
       intros [u Hu]. apply users_fit in Hu. congruence. }
  destruct (users db !! idUser) as [usr|] eqn:Hu; simpl.
  2: { do 2 eexists. split; [done|]. split; [done|]. split; [done|].
       split; [by intros [? ?]|]. by intros l. }
  set (rows := filter _ (conversations db)).
  assert (forall k c, rows !! k = Some c
            <-> conversations db !! k = Some c
                /\ Conversation.idUser c = idUser /\ Conversation.active c = true) as Hrows.
  { intros k c. unfold rows. rewrite map_lookup_filter_Some. simpl.
    unfold owned_by. rewrite andb_true_iff, Z.eqb_eq. tauto. }
  case_bool_decide as Hlen; simpl.
  - do 2 eexists. split; [done|]. split; [done|]. split; [done|].
    split; [|by intros l].
    intros _. split; [done|]. split; [|by left]. split; [|done].
    intros _ k c Hk Hown. destruct (Conversation.active c) eqn:Hact; [|done].
    rewrite length_fmap in Hlen. apply nil_length_inv in Hlen.
    apply map_to_list_empty_iff in Hlen.
    assert (rows !! k = Some c) as Hin by (by apply Hrows).
    rewrite Hlen in Hin. by rewrite lookup_empty in Hin.
  - do 2 eexists. split; [done|]. split; [done|]. split; [done|]. split.
    + intros _. split; [done|]. split; [|right; by eexists]. split; [done|].
      intros Hnone. exfalso. apply Hlen. rewrite length_fmap.
      destruct (map_to_list rows) as [|[k c] rest] eqn:Hl; [done|].
      assert (rows !! k = Some c) as Hin.
      { apply elem_of_map_to_list. rewrite Hl. left. }
      apply Hrows in Hin as (Hk & Hown & Hact).
      by rewrite (Hnone k c Hk Hown) in Hact.
    + intros l [= <-]. split; [done|]. split.
      { intros Hnil. apply Hlen. by rewrite Hnil. }
      rewrite view_ids. split; [apply NoDup_fst_map_to_list|]. split.
      * intros k. rewrite list_elem_of_fmap. split.
        -- intros ([k' c] & -> & Hin). apply elem_of_map_to_list in Hin.
           exists c. by apply Hrows.
        -- intros (c & Hin). apply Hrows in Hin. exists (k, c).
           split; [done|]. by apply elem_of_map_to_list.
      * apply Forall_fmap, Forall_forall. intros [k c] Hin.
        apply elem_of_map_to_list, Hrows in Hin as (Hk & _ & _). simpl.
        do 5 (split; [done|]).
        intros m Hm. unfold model_summary. rewrite Hm. simpl. by eexists.
Qed.

Lemma getAllConversationsByUserId_lists_active_witness :
  exists r calls,
    getAllConversationsByUserId (Some 1) Sample.db = (Ret r, Sample.db, calls)
    /\ forall l, PrismaResponse.data r = Some l ->
         NoDup (View.id <$> l)
         /\ (1 ∈ View.id <$> l) /\ (2 ∉ View.id <$> l).
Proof.
  destruct (getAllConversationsByUserId_lists_active 1 Sample.db eq_refl)
    as (r & calls & Hrun & _ & _ & _ & Hdata).
  exists r, calls. split; [exact Hrun|]. intros l Hl.
  destruct (Hdata l Hl) as (_ & _ & Hnd & Hin & _).
  split; [exact Hnd|]. split.
  - apply Hin. exists Sample.chat. by repeat split.
  - intros (c & Hc & _ & Hact)%Hin. vm_compute in Hc. injection Hc as <-. done.
Defined.

Lemma messages_of_spec (db : Db) (id : Z) (m : Message.t) :
  m ∈ messages_of db id
  <-> exists k, messages db !! k = Some m /\ Message.idConversation m = id.
Proof.
  unfold messages_of. rewrite list_elem_of_fmap. split.
  - intros ([k m'] & -> & Hin). apply elem_of_map_to_list in Hin.
    apply map_lookup_filter_Some in Hin as [Hk Hid]. by exists k.
  - intros (k & Hk & Hid). exists (k, m). split; [done|].
    apply elem_of_map_to_list. by apply map_lookup_filter_Some.
Qed.

(** X6: a positive id that fits the column finds the row whenever it
    exists, active or not, with its tags, its user, its model and exactly its
    own messages, and answers 404 when no row has it; an id that does not
    fit is refused by the client (500). *)
Theorem getConversationById_complete (id : Z) (db : Db) :
  0 < id ->
  exists r,
    getConversationById (Some id) db = (Ret r, db, [ConversationFindUnique (Some id)])
    /\ (fits id = false -> r = internal_error PrismaValueOutOfRange)
    /\ (fits id = true -> conversations db !! id = None ->
        r = failure 404 "Conversation not found")
    /\ (forall c, conversations db !! id = Some c ->
          exists v ms,
            r = success 200 (Some v) None
            /\ View.id v = id
            /\ View.row v = c
            /\ View.tags v = Some (Conversation.tags c)
            /\ View.user v = users db !! Conversation.idUser c
            /\ View.model v = models db !! Conversation.idModel c
            /\ View.messages v = Some ms
            /\ (forall m, m ∈ ms
                  <-> exists k, messages db !! k = Some m
                        /\ Message.idConversation m = id)
            /\ length ms
               = size (filter (fun kv => Message.idConversation kv.2 = id) (messages db))).
Proof.
  intros Hpos. destruct (conversations db !! id) as [c|] eqn:Hc.
  - eexists. split; [by apply getConversationById_found|].
    pose proof (conversations_fit db id c Hc) as Hfit.
    split; [congruence|]. split; [done|].
    intros c' [= <-]. exists (view IncludeAll db id c), (messages_of db id).
    repeat split; try apply messages_of_spec.
    unfold messages_of. by rewrite length_fmap, length_map_to_list.
  - destruct (fits id) eqn:Hfit.
    + eexists. split; [by apply getConversationById_missing|]. by repeat split.
    + eexists. split; [by apply getConversationById_out_of_range|]. by repeat split.
Qed.

Lemma getConversationById_complete_witness :
  0 < 2
  /\ Conversation.active Sample.archived = false
  /\ exists r,
       getConversationById (Some 2) Sample.db
       = (Ret r, Sample.db, [ConversationFindUnique (Some 2)])
       /\ exists v, r = success 200 (Some v) None /\ View.row v = Sample.archived.
Proof.
  destruct (getConversationById_complete 2 Sample.db eq_refl)
    as (r & Hrun & _ & _ & Hsome).
  destruct (Hsome Sample.archived eq_refl) as (v & ms & Hr & _ & Hrow & _).
  split; [reflexivity|]. split; [reflexivity|]. exists r. split; [exact Hrun|].
  exists v. by split.
Defined.

(** ** Updating *)

(** X7: a valid payload replaces the stored parameters as a whole, whatever
    the id's sign; an invalid one is refused before any query. *)
Theorem updateConversationParameters_overwrites
    (valid : json -> bool) (id : Z) (parameters : json) (c : Conversation.t) (db : Db) :
  conversations db !! id = Some c ->
  exists r db' calls,
    updateConversationParameters valid (Some id) parameters db = (Ret r, db', calls)
    /\ (valid parameters = false ->
        r = failure 400 "Invalid model parameters" /\ db' = db /\ calls = [])
    /\ (valid parameters = true ->
        exists c',
          calls = [ConversationUpdate (Some id)]
          /\ db' = set_conversations (insert id c') db
          /\ r = success 200 (Some (view IncludeNothing db' id c')) None
          /\ Conversation.parameters c' = parameters
          /\ Conversation.title c' = Conversation.title c
          /\ Conversation.active c' = Conversation.active c
          /\ Conversation.tags c' = Conversation.tags c
          /\ Conversation.idUser c' = Conversation.idUser c
          /\ Conversation.idModel c' = Conversation.idModel c
          /\ (forall k, k <> id -> conversations db' !! k = conversations db !! k)
          /\ messages db' = messages db
          /\ (0 < id ->
              getConversationById (Some id) db'
              = (Ret (success 200 (Some (view IncludeAll db' id c')) None), db',
                 [ConversationFindUnique (Some id)]))).
Proof.
  intros Hc. unfold updateConversationParameters.
  destruct (valid parameters) eqn:Hv; simpl.
  2: { do 3 eexists. split; [done|]. by split. }
  pose proof (conversations_fit db id c Hc) as Hfit.
  unfold catch_500, try_catch, mbind, M_bind.
  rewrite (conversation_update_found id _ _ db c Hc) by done.
  simpl. do 3 eexists. split; [done|]. split; [done|]. intros _.
  eexists. split; [done|]. split; [done|]. split; [done|].
  repeat split.
  - intros k Hk. rewrite conversations_inserted by done. by rewrite lookup_insert_ne.
  - intros Hpos. apply getConversationById_found; [done|].
    rewrite conversations_inserted by done. by rewrite lookup_insert_eq.
Qed.

Lemma updateConversationParameters_overwrites_witness :
  conversations Sample.db !! 1 = Some Sample.chat
  /\ exists r db' calls,
       updateConversationParameters (fun _ => true) (Some 1) Sample.half Sample.db
       = (Ret r, db', calls)
       /\ exists c', conversations db' !! 1 = Some c'
                     /\ Conversation.parameters c' = Sample.half.
Proof.
  destruct (updateConversationParameters_overwrites
              (fun _ => true) 1 Sample.half Sample.chat Sample.db eq_refl)
    as (r & db' & calls & Hrun & _ & Hvalid).
  destruct (Hvalid eq_refl) as (c' & _ & Hdb & _ & Hp & _).
  split; [reflexivity|]. exists r, db', calls. split; [exact Hrun|].
  exists c'. split; [|exact Hp]. rewrite Hdb, conversations_inserted by done.
  apply lookup_insert_eq.
Defined.

(** X8: what [updateConversationById] changes of a row, and what it leaves. *)
Theorem updateConversationById_changes
    (id : Z) (c : Conversation.t) (db : Db) (updatedInfo : UpdatedInfo.t)
    (includeRelatedEntities : bool) :
  0 < id ->
  conversations db !! id = Some c ->
  blank_title (UpdatedInfo.title updatedInfo) = false ->
  (forall t, t ∈ default [] (UpdatedInfo.tags updatedInfo) ->
             is_Some (tag_rows db !! t)) ->
  exists c' db' v,
    updateConversationById (Some id) updatedInfo includeRelatedEntities db
    = (Ret (success 200 (Some v) None), db', [ConversationUpdate (Some id)])
    /\ db' = set_conversations (insert id c') db
    /\ View.id v = id
    /\ View.row v = c'
    /\ Conversation.title c'
       = new_title (UpdatedInfo.title updatedInfo) (Conversation.title c)
    /\ (UpdatedInfo.tags updatedInfo = None -> Conversation.tags c' = Conversation.tags c)
    /\ Conversation.parameters c' = Conversation.parameters c
    /\ Conversation.active c' = Conversation.active c
    /\ Conversation.idUser c' = Conversation.idUser c
    /\ Conversation.idModel c' = Conversation.idModel c
    /\ (forall k, k <> id -> conversations db' !! k = conversations db !! k)
    /\ messages db' = messages db
    /\ View.messages v
       = (if includeRelatedEntities then Some (messages_of db id) else None)
    /\ View.user v
       = (if includeRelatedEntities then users db !! Conversation.idUser c else None).
Proof.
  intros Hpos Hc Hblank Htags.
  unfold updateConversationById, catch_500, try_catch.
  rewrite (id_guard_accepts id Hpos).
  fold (blank_title (UpdatedInfo.title updatedInfo)). rewrite Hblank.
  pose proof (conversations_fit db id c Hc) as Hfit.
  unfold mbind, M_bind.
  rewrite (conversation_update_found id _ _ db c Hc)
    by (by apply all_tags_exist_iff).
  simpl. do 3 eexists. split; [done|]. split; [done|].
  rewrite view_id, view_row by (by destruct includeRelatedEntities). simpl.
  split; [done|]. split; [done|]. split.
  { by destruct (UpdatedInfo.title updatedInfo) as [[|x t]|]. }
  split; [by intros ->|]. repeat split.
  - intros k Hk. rewrite restrict_insert by done. by rewrite lookup_insert_ne.
  - by destruct includeRelatedEntities.
  - by destruct includeRelatedEntities.
Qed.

Lemma updateConversationById_changes_witness :
  blank_title (Some (lit " New ")) = false
  /\ exists c' db' v,
       updateConversationById (Some 2)
         {| UpdatedInfo.tags := None; UpdatedInfo.title := Some (lit " New ") |}
         false Sample.db
       = (Ret (success 200 (Some v) None), db', [ConversationUpdate (Some 2)])
       /\ db' = set_conversations (insert 2 c') Sample.db
       /\ Conversation.title c' = lit " New "
       /\ Conversation.active c' = false.
Proof.
  assert (forall t, t ∈ @nil Z -> is_Some (tag_rows Sample.db !! t)) as Htags.
  { intros t Ht. by apply elem_of_nil in Ht. }
  destruct (updateConversationById_changes 2 Sample.archived Sample.db
              {| UpdatedInfo.tags := None; UpdatedInfo.title := Some (lit " New ") |}
              false eq_refl eq_refl eq_refl Htags)
    as (c' & db' & v & Hrun & Hdb & _ & _ & Ht & _ & _ & Ha & _).
  split; [reflexivity|]. exists c', db', v. by repeat split.
Defined.

(** ** Creating *)

(** X9: which inputs [createConversation] answers with 400 and with 404, and
    that it has written nothing then. An id that does not fit its column is
    neither: the client refuses the lookup (500). *)
Theorem createConversation_refusals JSON_parse JSON_stringify methods
    (input : option ConversationDataInput.t) (db : Db) :
  exists r db' calls,
    createConversation JSON_parse JSON_stringify methods input db = (Ret r, db', calls)
    /\ (PrismaResponse.status r = 400%nat <-> creatable input = false)
    /\ (creatable input = false ->
        r = failure 400 "Invalid input for creating conversation"
        /\ db' = db /\ calls = [])
    /\ (PrismaResponse.status r = 404%nat
        <-> creatable input = true
            /\ exists u, input ≫= ConversationDataInput.idUser = Some u
                 /\ fits u = true
                 /\ (users db !! u = None
                     \/ exists m, input ≫= ConversationDataInput.idModel = Some m
                          /\ fits m = true
                          /\ models db !! m = None))
    /\ (forall u, creatable input = true ->
          input ≫= ConversationDataInput.idUser = Some u ->
          (fits u = false ->
           r = internal_error PrismaValueOutOfRange /\ db' = db
           /\ calls = [UserFindUnique (Some u)])
          /\ (fits u = true -> users db !! u = None ->
              r = failure 404 "User not found" /\ db' = db
              /\ calls = [UserFindUnique (Some u)]))
    /\ (forall u m, creatable input = true ->
          input ≫= ConversationDataInput.idUser = Some u ->
          input ≫= ConversationDataInput.idModel = Some m ->
          is_Some (users db !! u) ->
          (fits m = false ->
           r = internal_error PrismaValueOutOfRange /\ db' = db
           /\ calls = [UserFindUnique (Some u); ModelFindUnique (Some m)])
          /\ (fits m = true -> models db !! m = None ->
              r = failure 404 "Model not found" /\ db' = db
              /\ calls = [UserFindUnique (Some u); ModelFindUnique (Some m)])).
Proof.
  destruct (createConversation_returns JSON_parse JSON_stringify methods input db)
    as (r & db' & calls & Hrun).
  exists r, db', calls. split; [exact Hrun|].
  revert Hrun. unfold createConversation, catch_500, try_catch, creatable.
  set (idUser := input ≫= ConversationDataInput.idUser).
  set (idModel := input ≫= ConversationDataInput.idModel).
  set (title := input ≫= ConversationDataInput.title).
  assert (forall l, (Ret (failure 400 "Invalid input for creating conversation"
                            : PrismaResponse.t View.t), db, l)
                    = (Ret r, db', calls) ->
                    r = failure 400 "Invalid input for creating conversation"
                    /\ db' = db /\ calls = l) as H400.
  { by intros l [= <- <- <-]. }
  destruct (truthy idUser) eqn:HtU; simpl.
  2: { intros (-> & -> & ->)%H400. split; [done|]. split; [done|].
       split; [|by split]. split; [intros H; discriminate H|by intros [? _]]. }
  destruct (truthy idModel) eqn:HtM; simpl.
  2: { intros (-> & -> & ->)%H400. split; [done|]. split; [done|].
       split; [|by split]. split; [intros H; discriminate H|by intros [? _]]. }
  destruct (truthy title) eqn:HtT; simpl.
  2: { intros (-> & -> & ->)%H400. split; [done|]. split; [done|].
       split; [|by split]. split; [intros H; discriminate H|by intros [? _]]. }
  destruct idUser as [u|] eqn:Hu; [|done].
  destruct idModel as [m|] eqn:Hm; [|done].
  unfold mbind, M_bind, user_findUnique, model_findUnique, query, unique_key.
  destruct (fits u) eqn:Hfu; simpl.
  2: { intros [= <- <- <-].
       split; [split; [intros H; discriminate H|done]|]. split; [done|]. split.
       - split; [intros H; discriminate H|].
         intros [_ (u' & [= <-] & Hfit & _)]. congruence.
       - split.
         + intros u' _ [= <-]. split; [done|]. intros Hfit. congruence.
         + intros u' m' _ [= <-] _ [x Hx]. apply users_fit in Hx. congruence. }
  destruct (users db !! u) as [user|] eqn:Huser; simpl.
  2: { intros [= <- <- <-].
       split; [split; [intros H; discriminate H|done]|]. split; [done|]. split.
       - split; [intros _|done]. split; [done|]. exists u. split; [done|].
         split; [done|]. by left.
       - split.
         + intros u' _ [= <-]. split; [intros Hfit; congruence|done].
         + intros u' m' _ [= <-] _ [x Hx]. congruence. }
  destruct (fits m) eqn:Hfm; simpl.
  2: { intros [= <- <- <-].
       split; [split; [intros H; discriminate H|done]|]. split; [done|]. split.
       - split; [intros H; discriminate H|].
         intros [_ (u' & [= <-] & _ & [Hx|(m' & [= <-] & Hfit & _)])]; congruence.
       - split.
         + intros u' _ [= <-]. split; [intros Hfit; congruence|intros _ Hx; congruence].
         + intros u' m' _ [= <-] [= <-] _. split; [done|]. intros Hfit. congruence. }
  destruct (models db !! m) as [model|] eqn:Hmodel; simpl.
  2: { intros [= <- <- <-].
       split; [split; [intros H; discriminate H|done]|]. split; [done|]. split.
       - split; [intros _|done]. split; [done|]. exists u. split; [done|].
         split; [done|]. right. by exists m.
       - split.
         + intros u' _ [= <-]. split; [intros Hfit; congruence|intros _ Hx; congruence].
         + intros u' m' _ [= <-] [= <-] _. split; [intros Hfit; congruence|done]. }
  assert (PrismaResponse.status r <> 400%nat ->
          PrismaResponse.status r <> 404%nat ->
          (PrismaResponse.status r = 400%nat <-> true = false)
          /\ (true = false ->
              r = failure 400 "Invalid input for creating conversation"
              /\ db' = db /\ calls = [])
          /\ (PrismaResponse.status r = 404%nat
              <-> true = true
                  /\ exists u0, Some u = Some u0
                       /\ fits u0 = true
                       /\ (users db !! u0 = None
                           \/ exists m0, Some m = Some m0 /\ fits m0 = true
                                /\ models db !! m0 = None))
          /\ (forall u0, true = true -> Some u = Some u0 ->
                (fits u0 = false ->
                 r = internal_error PrismaValueOutOfRange /\ db' = db
                 /\ calls = [UserFindUnique (Some u0)])
                /\ (fits u0 = true -> users db !! u0 = None ->
                    r = failure 404 "User not found" /\ db' = db
                    /\ calls = [UserFindUnique (Some u0)]))
          /\ (forall u0 m0, true = true -> Some u = Some u0 -> Some m = Some m0 ->
                is_Some (users db !! u0) ->
                (fits m0 = false ->
                 r = internal_error PrismaValueOutOfRange /\ db' = db
                 /\ calls = [UserFindUnique (Some u0); ModelFindUnique (Some m0)])
                /\ (fits m0 = true -> models db !! m0 = None ->
                    r = failure 404 "Model not found" /\ db' = db
                    /\ calls = [UserFindUnique (Some u0); ModelFindUnique (Some m0)])))
    as Hrest.
  { intros H400' H404. split; [done|]. split; [done|]. split.
    - split; [done|].
      intros [_ (u' & [= <-] & _ & [Hx|(m' & [= <-] & _ & Hx)])]; congruence.
    - split.
      + intros u' _ [= <-]. split; [intros Hfit; congruence|intros _ Hx; congruence].
      + intros u' m' _ [= <-] [= <-] _.
        split; [intros Hfit; congruence|intros _ Hx; congruence]. }
  destruct ((if truthy (User.globalParameters user)
             then parse JSON_parse (js_String (User.globalParameters user))
             else mret empty_object) db) as [[[g|e] d1] l1] eqn:Hparse; simpl.
  2: { intros [= <- _ _]. apply Hrest; intros H; discriminate H. }
  unfold lift.
  destruct (get_property methods g (Model.name model)) as [mp|e]; simpl.
  2: { intros [= <- _ _]. apply Hrest; intros H; discriminate H. }
  destruct input as [i|]; [|done]. simpl.
  destruct (conversation_create _ _ d1) as [[[v|e] d2] l2]; simpl;
    intros [= <- _ _]; apply Hrest; intros H; discriminate H.
Qed.

(** X10: the user's global parameters are parsed before [useGlobalParameters]
    is looked at, so a text that does not parse, or the text [null], fails
    the creation whatever the flag. *)
Theorem createConversation_parses_eagerly JSON_parse JSON_stringify methods
    (i : ConversationDataInput.t) (u m : Z) (t : jsstring)
    (user : User.t) (model : Model.t) (s : jsstring) (db : Db) :
  ConversationDataInput.idUser i = Some u -> u <> 0 ->
  ConversationDataInput.idModel i = Some m -> m <> 0 ->
  ConversationDataInput.title i = Some t -> t <> [] ->
  users db !! u = Some user ->
  models db !! m = Some model ->
  User.globalParameters user = Some s -> s <> [] ->
  (JSON_parse s = None ->
   createConversation JSON_parse JSON_stringify methods (Some i) db
   = (Ret (internal_error SyntaxError), db,
      [UserFindUnique (Some u); ModelFindUnique (Some m)]))
  /\ (JSON_parse s = Some JNull ->
      createConversation JSON_parse JSON_stringify methods (Some i) db
      = (Ret (internal_error TypeError), db,
         [UserFindUnique (Some u); ModelFindUnique (Some m)])).
Proof.
  intros Hu Hu0 Hm Hm0 Ht Ht0 Huser Hmodel Hg Hs.
  unfold createConversation, catch_500, try_catch. simpl. rewrite Hu, Hm, Ht. simpl.
  rewrite !truthy_id.
  destruct (Z.eqb_spec u 0) as [|_]; [done|]. destruct (Z.eqb_spec m 0) as [|_]; [done|].
  destruct t as [|x t]; [done|]. simpl.
  unfold mbind, M_bind, user_findUnique, model_findUnique, query.
  rewrite (unique_key_fits u (users_fit db u user Huser)),
    (unique_key_fits m (models_fit db m model Hmodel)).
  simpl. rewrite Huser. simpl. rewrite Hmodel. simpl. rewrite Hg.
  destruct s as [|y s]; [done|]. simpl. unfold parse.
  split; intros ->; reflexivity.
Qed.

Lemma createConversation_parses_eagerly_witness :
  ConversationDataInput.useGlobalParameters (Sample.input 3 false) = false
  /\ createConversation Sample2.JSON_parse Sample.JSON_stringify Sample.methods
       (Some (Sample.input 3 false)) Sample2.db
     = (Ret (internal_error SyntaxError), Sample2.db,
        [UserFindUnique (Some 3); ModelFindUnique (Some 2)])
  /\ createConversation Sample2.JSON_parse Sample.JSON_stringify Sample.methods
       (Some (Sample.input 4 false)) Sample2.db
     = (Ret (internal_error TypeError), Sample2.db,
        [UserFindUnique (Some 4); ModelFindUnique (Some 2)]).
Proof.
  split; [reflexivity|]. split.
  - refine (proj1 (createConversation_parses_eagerly
                     Sample2.JSON_parse Sample.JSON_stringify Sample.methods
                     (Sample.input 3 false)
                     3 2 (lit "Test") Sample2.carol Sample.gpt4 (lit "oops") Sample2.db
                     eq_refl _ eq_refl _ eq_refl _ eq_refl eq_refl eq_refl _) eq_refl);
      discriminate.
  - refine (proj2 (createConversation_parses_eagerly
                     Sample2.JSON_parse Sample.JSON_stringify Sample.methods
                     (Sample.input 4 false)
                     4 2 (lit "Test") Sample2.dave Sample.gpt4 (lit "null") Sample2.db
                     eq_refl _ eq_refl _ eq_refl _ eq_refl eq_refl eq_refl _) eq_refl);
      discriminate.
Defined.

(** X11: the caller's [parameters] and [active] never reach the new row. *)
Theorem createConversation_ignores_parameters_and_active JSON_parse JSON_stringify methods
    (a b : ConversationDataInput.t) (db : Db) :
  same_but_parameters_and_active a b ->
  createConversation JSON_parse JSON_stringify methods (Some a) db
  = createConversation JSON_parse JSON_stringify methods (Some b) db.
Proof.
  destruct a as [u m t tags p1 a1 g], b as [u' m' t' tags' p2 a2 g'].
  intros (Hu & Hm & Ht & Htags & Hg). simpl in *. subst u' m' t' tags' g'.
  reflexivity.
Qed.

Lemma createConversation_ignores_parameters_and_active_witness :
  ConversationDataInput.parameters (Sample.input 2 true)
  <> ConversationDataInput.parameters (Sample2.other_input 2 true)
  /\ ConversationDataInput.active (Sample.input 2 true)
     <> ConversationDataInput.active (Sample2.other_input 2 true)
  /\ createConversation Sample.JSON_parse Sample.JSON_stringify Sample.methods
       (Some (Sample.input 2 true)) Sample.db
     = createConversation Sample.JSON_parse Sample.JSON_stringify Sample.methods
         (Some (Sample2.other_input 2 true)) Sample.db.
Proof.
  split; [discriminate|]. split; [discriminate|].
  apply createConversation_ignores_parameters_and_active. by repeat split.
Defined.

Lemma messages_of_new (db : Db) (id : Z) (f : gmap Z Conversation.t -> gmap Z Conversation.t) :
  (forall k m, messages db !! k = Some m ->
               is_Some (conversations db !! Message.idConversation m)) ->
  conversations db !! id = None ->
  messages_of (bump_conversation_id (set_conversations f db)) id = [].
Proof.
  intros Hfk Hnone. unfold messages_of. simpl.
  replace (filter _ (messages db)) with (∅ : gmap Z Message.t);
    [by rewrite map_to_list_empty|].
  symmetry. apply map_empty_filter. intros k m Hk Hid. simpl in Hid.
  destruct (Hfk k m Hk) as [x Hx]. rewrite Hid, Hnone in Hx. done.
Qed.

(** X12: a created conversation starts without messages, and
    [getConversationById] gives it back as [createConversation] returned
    it. *)
Theorem created_conversation_round_trip JSON_parse JSON_stringify methods
    (input : option ConversationDataInput.t) (db db' : Db)
    (r : PrismaResponse.t View.t) (calls : list call) :
  db_wf db ->
  createConversation JSON_parse JSON_stringify methods input db = (Ret r, db', calls) ->
  PrismaResponse.status r = 201%nat ->
  exists v,
    r = success 201 (Some v) None
    /\ View.id v = next_conversation_id db
    /\ next_conversation_id db' = next_conversation_id db + 1
    /\ View.messages v = Some []
    /\ is_Some (View.user v)
    /\ is_Some (View.model v)
    /\ (forall k, k <> View.id v -> conversations db' !! k = conversations db !! k)
    /\ messages db' = messages db
    /\ getConversationById (Some (View.id v)) db'
       = (Ret (success 200 (Some v) None), db',
          [ConversationFindUnique (Some (View.id v))]).
Proof.
  intros (Hseq & Hconv & Hfk) Hrun Hst.
  destruct (createConversation_201 _ _ _ _ _ _ _ _ Hrun Hst)
    as (i & u & m & t & user & model & g & mp & c
        & -> & _ & _ & _ & Huser & Hmodel & _ & _ & Hc & Hnone & Hfit & -> & ->).
  eexists. split; [done|]. rewrite view_id.
  split; [done|]. split; [done|]. split.
  { unfold view. simpl. f_equal. by apply messages_of_new. }
  split; [unfold view; simpl; rewrite Hc; simpl; rewrite Huser; by eexists|].
  split; [unfold view; simpl; rewrite Hc; simpl; rewrite Hmodel; by eexists|].
  split.
  { intros k Hk. simpl. rewrite restrict_insert by done. by rewrite lookup_insert_ne. }
  split; [done|].
  apply getConversationById_found; [done|]. simpl.
  rewrite restrict_insert by done. by rewrite lookup_insert_eq.
Qed.

Lemma created_conversation_round_trip_witness :
  exists r db' calls v,
    createConversation Sample.JSON_parse Sample.JSON_stringify Sample.methods
      (Some (Sample.input 1 false)) Sample.db = (Ret r, db', calls)
    /\ r = success 201 (Some v) None
    /\ View.id v = 3
    /\ View.messages v = Some []
    /\ getConversationById (Some 3) db'
       = (Ret (success 200 (Some v) None), db', [ConversationFindUnique (Some 3)]).
Proof.
  destruct (createConversation_returns Sample.JSON_parse Sample.JSON_stringify
              Sample.methods (Some (Sample.input 1 false)) Sample.db)
    as (r & db' & calls & Hrun).
  assert (PrismaResponse.status r = 201%nat) as Hst.
  { vm_compute in Hrun. by injection Hrun as <- _ _. }
  destruct (created_conversation_round_trip _ _ _ _ _ _ _ _ sample_db_wf Hrun Hst)
    as (v & Hr & Hid & _ & Hms & _ & _ & _ & _ & Hget).
  exists r, db', calls, v. rewrite Hid in Hget. by repeat split.
Defined.

(** ** Repeating a call *)

Lemma apply_update_idem (data : UpdateData.t) (c : Conversation.t) :
  apply_update data (apply_update data c) = apply_update data c.
Proof.
  unfold apply_update. simpl.
  by destruct (UpdateData.title data), (UpdateData.parameters data),
    (UpdateData.active data), (UpdateData.set_tags data).
Qed.

Lemma conversation_update_again (data : UpdateData.t) (inc : include)
    (db : Db) (i : Z) (c : Conversation.t) :
  fits i = true ->
  all_tags_exist db (default [] (UpdateData.set_tags data)) = true ->
  let db' := set_conversations (insert i (apply_update data c)) db in
  conversation_update (Some i) data inc db'
  = (Ret (Some (view inc db' i (apply_update data c))), db', [ConversationUpdate (Some i)]).
Proof.
  intros Hfit Hall db'.
  assert (conversations db' !! i = Some (apply_update data c)) as Hc.
  { unfold db'. rewrite conversations_inserted by done. apply lookup_insert_eq. }
  rewrite (conversation_update_found i data inc db' _ Hc) by exact Hall.
  rewrite apply_update_idem.
  assert (set_conversations (insert i (apply_update data c)) db' = db') as ->; [|done].
  apply Db_eq; try reflexivity.
  rewrite conversations_inserted by done. unfold db'.
  rewrite conversations_inserted by done. apply insert_insert_eq.
Qed.

Lemma deactivate_owned_idem (idUser : option Z) (c : Conversation.t) :
  deactivate_owned idUser (deactivate_owned idUser c) = deactivate_owned idUser c.
Proof.
  unfold deactivate_owned. destruct (owned_by idUser c) eqn:Ho; [|by rewrite Ho].
  assert (owned_by idUser (apply_update deactivate c) = true) as ->; [|done].
  unfold owned_by in *. by destruct idUser.
Qed.

Lemma owned_count_deactivated (idUser : option Z) (m : gmap Z Conversation.t) :
  size (filter (fun kv => owned_by idUser kv.2 = true) (deactivate_owned idUser <$> m))
  = size (filter (fun kv => owned_by idUser kv.2 = true) m).
Proof.
  rewrite map_filter_fmap, map_size_fmap. f_equal.
  apply map_filter_ext. intros k c _. simpl.
  unfold deactivate_owned. destruct (owned_by idUser c) eqn:Ho; [|by rewrite Ho].
  unfold owned_by in *. by destruct idUser.
Qed.

(** X13: the four updating functions can be repeated: the second call answers
    as the first did and changes nothing more. *)
Theorem updates_are_idempotent (db : Db) :
  (forall id updatedInfo includeRelatedEntities o db' calls,
     updateConversationById id updatedInfo includeRelatedEntities db = (o, db', calls) ->
     updateConversationById id updatedInfo includeRelatedEntities db' = (o, db', calls))
  /\ (forall valid id parameters o db' calls,
        updateConversationParameters valid id parameters db = (o, db', calls) ->
        updateConversationParameters valid id parameters db' = (o, db', calls))
  /\ (forall id o db' calls,
        deactivateConversationById id db = (o, db', calls) ->
        deactivateConversationById id db' = (o, db', calls))
  /\ (forall idUser o db' calls,
        deactivateAllConversationsByUserId idUser db = (o, db', calls) ->
        deactivateAllConversationsByUserId idUser db' = (o, db', calls)).
Proof.
  split; [|split; [|split]].
  - intros id info inc o db' calls Hrun.
    destruct (updateConversationById_cases _ _ _ _ _ _ _ Hrun)
      as (r & -> & [[-> _]|(i & c & c' & -> & Hpos & Hblank & Hc & Hall & -> & -> & -> & ->)]);
      [done|].
    unfold updateConversationById, catch_500, try_catch.
    rewrite (id_guard_accepts i Hpos).
    fold (blank_title (UpdatedInfo.title info)). rewrite Hblank.
    unfold mbind, M_bind.
    by rewrite conversation_update_again by eauto using conversations_fit.
  - intros valid id p o db' calls Hrun.
    destruct (updateConversationParameters_cases _ _ _ _ _ _ _ Hrun)
      as (r & -> & [[-> _]|(i & c & c' & -> & Hv & Hc & -> & -> & -> & ->)]);
      [done|].
    unfold updateConversationParameters. rewrite Hv. simpl.
    unfold catch_500, try_catch, mbind, M_bind.
    by rewrite conversation_update_again by eauto using conversations_fit.
  - intros id o db' calls Hrun.
    unfold deactivateConversationById, catch_500, try_catch in *.
    destruct (negb (truthy id) || js_le0 id) eqn:Hguard.
    { by injection Hrun as <- <- <-. }
    unfold mbind, M_bind in *.
    destruct (conversation_update id _ _ db) as [[o1 d1] l1] eqn:Hupd.
    destruct (conversation_update_cases _ _ _ _ _ _ _ Hupd)
      as [-> [(e & -> & ->)|Hok]].
    { injection Hrun as <- <- <-. by rewrite Hupd. }
    destruct Hok as (i & c & -> & Hc & Hall & -> & ->). simpl in Hrun.
    injection Hrun as <- <- <-.
    by rewrite conversation_update_again by eauto using conversations_fit.
  - intros idUser o db' calls.
    unfold deactivateAllConversationsByUserId, catch_500, try_catch,
      mbind, M_bind, user_findUnique, conversation_updateMany, query.
    destruct idUser as [u|]; simpl; [|by intros [= <- <- <-]].
    destruct (fits u) eqn:Hfu; simpl; [|by intros [= <- <- <-]].
    destruct (users db !! u) as [usr|] eqn:Hu; simpl.
    2: { intros [= <- <- <-]. by rewrite Hu. }
    change (fun c : Conversation.t =>
              if owned_by (Some u) c then apply_update deactivate c else c)
      with (deactivate_owned (Some u)).
    assert (set_conversations (fmap (deactivate_owned (Some u)))
              (set_conversations (fmap (deactivate_owned (Some u))) db)
            = set_conversations (fmap (deactivate_owned (Some u))) db) as Hagain.
    { apply Db_eq; try reflexivity. rewrite !conversations_mapped.
      rewrite <- map_fmap_compose. apply map_fmap_ext. intros k c _.
      apply deactivate_owned_idem. }
    case_bool_decide as Hn; simpl; intros [= <- <- <-]; simpl; rewrite Hu; simpl;
      rewrite restrict_fmap, owned_count_deactivated; rewrite bool_decide_decide;
      destruct (decide _) as [Hn'|Hn']; try done; simpl;
      do 2 f_equal; exact Hagain.
Qed.

(** X14: once a conversation is deleted, updating, deactivating or deleting
    it again answers 500, not 404, and changes nothing. *)
Theorem deleted_conversation_answers_500 (id : Z) (c : Conversation.t) (db : Db) :
  0 < id ->
  conversations db !! id = Some c ->
  exists db',
    deleteConversationById (Some id) db
    = (Ret (success 200 None
              (Some "Conversation and associated messages successfully deleted"%string)),
       db', [MessageDeleteMany (Some id); ConversationDelete (Some id)])
    /\ (forall updatedInfo includeRelatedEntities,
          blank_title (UpdatedInfo.title updatedInfo) = false ->
          updateConversationById (Some id) updatedInfo includeRelatedEntities db'
          = (Ret (internal_error PrismaRecordNotFound), db',
             [ConversationUpdate (Some id)]))
    /\ (forall valid parameters,
          valid parameters = true ->
          updateConversationParameters valid (Some id) parameters db'
          = (Ret (internal_error PrismaRecordNotFound), db',
             [ConversationUpdate (Some id)]))
    /\ deactivateConversationById (Some id) db'
       = (Ret (internal_error PrismaRecordNotFound), db', [ConversationUpdate (Some id)])
    /\ deleteConversationById (Some id) db'
       = (Ret (internal_error PrismaRecordNotFound), db',
          [MessageDeleteMany (Some id); ConversationDelete (Some id)]).
Proof.
  intros Hid Hc.
  pose proof (conversations_fit db id c Hc) as Hfit.
  exists (set_conversations (delete id) (without_messages id db)).
  split.
  { unfold deleteConversationById, catch_500, try_catch.
    rewrite (id_guard_accepts id Hid).
    unfold mbind, M_bind, message_deleteMany, conversation_delete, query.
    rewrite (filter_key_fits id Hfit), (unique_key_fits id Hfit). simpl.
    by rewrite Hc. }
  assert (conversations (set_conversations (delete id) (without_messages id db)) !! id
          = None) as Hnone by (rewrite conversations_deleted; apply lookup_delete_eq).
  destruct (missing_row_answers_500 id _ Hid Hfit Hnone)
    as (Hupdate & Hdeactivate & Hdelete).
  split; [exact Hupdate|]. split.
  { revert Hnone. generalize (set_conversations (delete id) (without_messages id db)).
    intros db' Hnone valid parameters Hv.
    unfold updateConversationParameters. rewrite Hv. simpl.
    unfold catch_500, try_catch, mbind, M_bind, conversation_update, updated_conversation.
    rewrite (unique_key_fits id Hfit). simpl. by rewrite Hnone. }
  split; [exact Hdeactivate|].
  apply Hdelete. intros k m. apply without_messages_none.
Qed.

Lemma deleted_conversation_answers_500_witness :
  exists db',
    deleteConversationById (Some 1) Sample.db
    = (Ret (success 200 None
              (Some "Conversation and associated messages successfully deleted"%string)),
       db', [MessageDeleteMany (Some 1); ConversationDelete (Some 1)])
    /\ deleteConversationById (Some 1) db'
       = (Ret (internal_error PrismaRecordNotFound), db',
          [MessageDeleteMany (Some 1); ConversationDelete (Some 1)]).
Proof.
  destruct (deleted_conversation_answers_500 1 Sample.chat Sample.db eq_refl eq_refl)
    as (db' & Hfirst & _ & _ & _ & Hagain).
  exists db'. by split.
Defined.


(** * Further properties of the parameters modal *)

Module ModalInvariants.
Import ModalParametersGPT ModalNotions.

Lemma same_deps_globals (a b : Deps) :
  same_deps a b = true ->
  dep_globalUserContext a = dep_globalUserContext b
  /\ dep_globalResponseContext a = dep_globalResponseContext b.
Proof.
  unfold same_deps. rewrite !andb_true_iff.
  intros [[[[[[[_ Hr] _] Hu] _] _] _] _].
  apply bool_decide_eq_true in Hr, Hu. by split.
Qed.

Lemma effect_shaped (env : Env) (s : State) : shaped (env, effect env s).
Proof.
  unfold shaped, effect, context_shape.
  destruct (isSelected s); simpl; split; first [by left | by right].
Qed.

Lemma step_shaped (c : Env * State) (ev : event) : shaped c -> shaped (step c ev).
Proof.
  intros [Hu Hr]. unfold step.
  destruct (same_deps _ _) eqn:Hdeps; [|apply effect_shaped].
  destruct c as [env s], ev as [v|v|v|b|env']; simpl in *.
  - split; [by left|exact Hr].
  - split; [exact Hu|by left].
  - by split.
  - by split.
  - apply same_deps_globals in Hdeps as [Hgu Hgr]. simpl in Hgu, Hgr.
    unfold shaped. simpl. by rewrite <- Hgu, <- Hgr.
Qed.

(** X15: whatever the user did, each saved context is the local text, alone
    or after the current global context and one space. *)
Theorem saved_context_shape (env : Env) (events : list event) :
  let c := run env events in
  context_shape (global GlobalParameters.userContext c.1)
    (updatedUserContext c.2) (Parameters.userContext (handleSave c.2))
  /\ context_shape (global GlobalParameters.responseContext c.1)
       (updatedResponseContext c.2) (Parameters.responseContext (handleSave c.2)).
Proof.
  simpl. change (shaped (run env events)). unfold run.
  induction events as [|ev events IH] using rev_ind.
  - apply effect_shaped.
  - rewrite fold_left_app. simpl. by apply step_shaped.
Qed.

Lemma run_app (env : Env) (events more : list event) :
  run env (events ++ more) = fold_left step more (run env events).
Proof. unfold run. by rewrite fold_left_app. Qed.

Lemma step_toggle (c : Env * State) (b : bool) :
  isSelected c.2 <> b ->
  step c (Toggle b) = (c.1, effect c.1 (setIsSelected b c.2)).
Proof.
  intros Hne. unfold step.
  pose proof (ModalProperties.toggle_changes_deps c b Hne) as Hruns.
  unfold effect_runs in Hruns. rewrite Hruns. by destruct c.
Qed.

(** X16: switching the toggle on and off again restores the form. *)
Theorem toggle_round_trip (env : Env) (events : list event) :
  isSelected (run env events).2 = false ->
  run env (events ++ [Toggle true; Toggle false]) = run env events.
Proof.
  intros Hoff. rewrite run_app. simpl.
  pose proof (ModalProperties.run_off_invariant env events Hoff) as Hinv.
  destruct (run env events) as [e s]. simpl in *.
  rewrite (step_toggle (e, s) true) by (simpl; by rewrite Hoff). simpl.
  rewrite step_toggle by (unfold effect; simpl; done). simpl.
  f_equal. unfold effect. simpl.
  destruct s as [sel uu ur ut p]. simpl in *. subst sel. by rewrite Hinv.
Qed.

Lemma toggle_round_trip_witness :
  let env := {| userContext := lit "L"; responseContext := lit "R";
                temperature := Num (7 # 10);
                prismaUser :=
                  Some (Some {| GlobalParameters.userContext := Some (lit "G");
                                GlobalParameters.responseContext := None;
                                GlobalParameters.temperature := Some (Num (1 # 2)) |}) |} in
  Parameters.userContext (handleSave (run env [Toggle true]).2) = lit "G L"
  /\ run env ([] ++ [Toggle true; Toggle false]) = run env [].
Proof.
  intros env. split; [reflexivity|]. by apply (toggle_round_trip env []).
Defined.

(** X17: with the toggle on, the text area shows the global context before
    the local text, so the next keystroke takes the global context into the
    local text, and the saved context holds it twice. *)
Theorem typing_duplicates_global_context (c : Env * State) (typed : jsstring) :
  isSelected c.2 = false ->
  let G := js_or (global GlobalParameters.userContext c.1) [] in
  let c1 := step c (Toggle true) in
  let shown := Parameters.userContext (globalFormParams c1.2) in
  let c2 := step c1 (ChangeUserContext (shown ++ typed)) in
  shown = G ++ space ++ updatedUserContext c.2
  /\ updatedUserContext c2.2 = G ++ space ++ updatedUserContext c.2 ++ typed
  /\ Parameters.userContext (handleSave c2.2)
     = G ++ space ++ G ++ space ++ updatedUserContext c.2 ++ typed.
Proof.
  intros Hoff G c1 shown c2.
  assert (c1 = (c.1, effect c.1 (setIsSelected true c.2))) as Hc1.
  { apply step_toggle. by rewrite Hoff. }
  assert (shown = G ++ space ++ updatedUserContext c.2) as Hshown.
  { unfold shown. by rewrite Hc1. }
  split; [exact Hshown|].
  assert (updatedUserContext c1.2 <> shown ++ typed) as Hne.
  { rewrite Hc1, Hshown. unfold effect. simpl. intros Heq.
    apply (f_equal length) in Heq. rewrite !length_app in Heq. simpl in Heq. lia. }
  assert (c2 = (c1.1, effect c1.1 (handle (ChangeUserContext (shown ++ typed)) c1).2))
    as Hc2.
  { unfold c2, step.
    assert (same_deps (deps c1.1 c1.2)
              (deps (handle (ChangeUserContext (shown ++ typed)) c1).1
                 (handle (ChangeUserContext (shown ++ typed)) c1).2) = false) as ->.
    { unfold same_deps. destruct c1 as [e1 s1]. simpl in *.
      rewrite (bool_decide_false _ Hne). apply andb_false_r. }
    by destruct c1. }
  rewrite Hc2, Hc1. unfold effect. simpl. rewrite Hshown.
  unfold template. fold G. by rewrite <- !app_assoc.
Qed.

Lemma typing_duplicates_global_context_witness :
  let env := {| userContext := lit "L"; responseContext := lit "R";
                temperature := Num (7 # 10);
                prismaUser :=
                  Some (Some {| GlobalParameters.userContext := Some (lit "G");
                                GlobalParameters.responseContext := None;
                                GlobalParameters.temperature := None |}) |} in
  let c1 := step (mount env) (Toggle true) in
  let c2 := step c1 (ChangeUserContext (lit "G L" ++ lit "!")) in
  Parameters.userContext (handleSave c2.2) = lit "G G L!".
Proof.
  intros env c1 c2.
  exact (proj2 (proj2 (typing_duplicates_global_context (mount env) (lit "!") eq_refl))).
Defined.

Lemma core_effect (env : Env) (s : State) : core (effect env s) = core s.
Proof. unfold effect. by destruct (isSelected s). Qed.

Lemma core_step_rerender (c : Env * State) (env' : Env) :
  core (step c (Rerender env')).2 = core c.2.
Proof.
  unfold step. destruct c as [env s]. simpl.
  destruct (same_deps _ _); simpl; [done|apply core_effect].
Qed.

Lemma core_step (c c' : Env * State) (ev : event) :
  is_rerender ev = false ->
  core c.2 = core c'.2 -> core (step c ev).2 = core (step c' ev).2.
Proof.
  intros Hev Hcore. unfold step.
  assert (core (handle ev c).2 = core (handle ev c').2) as Hh.
  { destruct c as [env s], c' as [env' s'], ev; try done; simpl in *;
      unfold core in *; simpl; congruence. }
  destruct (same_deps (deps c.1 c.2) _), (same_deps (deps c'.1 c'.2) _); simpl;
    rewrite ?core_effect; exact Hh.
Qed.

Lemma core_fold (events : list event) (c c' : Env * State) :
  core c.2 = core c'.2 ->
  core (fold_left step events c).2 = core (fold_left step (user_events events) c').2.
Proof.
  revert c c'. induction events as [|ev events IH]; intros c c' Hcore; [done|].
  simpl. destruct (is_rerender ev) eqn:Hev; simpl.
  - apply IH. destruct ev; try done. by rewrite core_step_rerender.
  - apply IH. by apply core_step.
Qed.

(** X18: with the toggle off, what is saved depends on the props of the first
    render and on the user's own events only: props and context that change
    later never reach it. *)
Theorem later_props_never_saved (env : Env) (events : list event) :
  isSelected (run env events).2 = false ->
  handleSave (run env events).2 = handleSave (run env (user_events events)).2.
Proof.
  intros Hoff.
  assert (core (run env events).2 = core (run env (user_events events)).2) as Hcore
    by (by apply core_fold).
  assert (isSelected (run env (user_events events)).2 = false) as Hoff'.
  { unfold core in Hcore. injection Hcore as Hsel _ _ _. by rewrite <- Hsel. }
  unfold handleSave.
  rewrite (ModalProperties.run_off_invariant env events Hoff).
  rewrite (ModalProperties.run_off_invariant env (user_events events) Hoff').
  unfold core in Hcore. injection Hcore as _ Hu Hr Ht.
  unfold local_values. by rewrite Hu, Hr, Ht.
Qed.

Lemma later_props_never_saved_witness :
  let env := {| userContext := lit "L"; responseContext := lit "R";
                temperature := Num (7 # 10); prismaUser := None |} in
  let env' := {| userContext := lit "other"; responseContext := lit "R2";
                 temperature := Num (1 # 10); prismaUser := None |} in
  Parameters.userContext (handleSave (run env [Rerender env']).2) = lit "L"
  /\ handleSave (run env [Rerender env']).2 = handleSave (run env []).2.
Proof.
  intros env env'. split; [reflexivity|].
  exact (later_props_never_saved env [Rerender env'] eq_refl).
Defined.

End ModalInvariants.

(** * Properties of the message list *)

Module MessageListProperties.
Import MessageList.

Lemma commit_settled (fuel : nat) (s : State) :
  commit fuel (Some (autoScroll s)) s = s.
Proof. destruct fuel; [done|]. simpl. by rewrite bool_decide_true. Qed.

Lemma mount_settles (fuel : nat) :
  (2 <= fuel)%nat -> mount fuel = {| autoScroll := false; scrolls := 3 |}.
Proof.
  intros Hfuel. destruct fuel as [|[|fuel]]; [lia|lia|].
  unfold mount. simpl. by destruct fuel.
Qed.

Lemma click_settles (fuel n : nat) :
  (2 <= fuel)%nat ->
  step fuel {| autoScroll := false; scrolls := n |} Click
  = {| autoScroll := false; scrolls := n + 4 |}.
Proof.
  intros Hfuel. destruct fuel as [|[|fuel]]; [lia|lia|].
  replace (n + 4)%nat with (S (S (S (S n)))) by lia.
  unfold step. simpl. by destruct fuel.
Qed.

(** X19: the list scrolls three times when it mounts and four times for each
    click on the button, and at no other time: new messages alone cause no
    scroll. Two renders after an event are enough for it to settle. *)
Theorem scrolls_counted (fuel : nat) (events : list event) :
  (2 <= fuel)%nat ->
  run fuel events = {| autoScroll := false; scrolls := 3 + 4 * clicks events |}.
Proof.
  intros Hfuel. unfold run.
  induction events as [|ev events IH] using rev_ind.
  - simpl. by apply mount_settles.
  - rewrite fold_left_app. cbn [fold_left]. rewrite IH.
    unfold clicks. rewrite List.filter_app, length_app.
    destruct ev as [|messages].
    + rewrite click_settles by done. simpl. f_equal. lia.
    + unfold step. rewrite (commit_settled fuel {| autoScroll := false; scrolls := _ |}).
      simpl. f_equal. lia.
Qed.

Lemma scrolls_counted_witness :
  let hello := {| role := lit "user"; content := lit "hi" |} in
  run 2 [Rerender [hello]; Click; Rerender [hello; hello]]
  = {| autoScroll := false; scrolls := 7 |}.
Proof.
  intros hello.
  exact (scrolls_counted 2 [Rerender [hello]; Click; Rerender [hello; hello]]
           (le_n 2)).
Defined.

(** X20: the items follow the messages in order, keyed by position; a message
    added at the end changes no item before it; the image is the user's for
    the role "user" exactly. *)
Theorem render_appends (messages more : list Message) (userImage providerImage : jsstring) :
  message <$> render messages userImage providerImage = messages
  /\ key <$> render messages userImage providerImage = seq 0 (length messages)
  /\ render messages userImage providerImage
     = take (length messages) (render (messages ++ more) userImage providerImage)
  /\ Forall (fun item =>
               (role (message item) = lit "user" -> senderImage item = userImage)
               /\ (role (message item) <> lit "user" -> senderImage item = providerImage))
            (render messages userImage providerImage).
Proof.
  unfold render. split; [|split; [|split]].
  - rewrite fmap_imap. simpl.
    rewrite (imap_ext _ (const id)) by done. by rewrite imap_const, list_fmap_id.
  - rewrite fmap_imap.
    transitivity (imap (fun j (_ : Message) => id j) messages); [by apply imap_ext|].
    by rewrite imap_seq_0, list_fmap_id.
  - rewrite imap_app. symmetry. apply take_app_length'. by rewrite length_imap.
  - apply Forall_forall. intros item (i & m & -> & _)%elem_of_lookup_imap. simpl.
    by destruct (decide (role m = lit "user")).
Qed.

End MessageListProperties.
